(** * A shallow embedding of the telnet client (package [pkg/telnet])

    The client of [pkg/telnet/telnet.go] relays bytes between a local input
    stream, a TCP connection and a local output stream.  Its four methods
    ([Connect], [Close], [Send], [Receive]) and its two helpers ([readOut],
    [writeOut]) are embedded below as functions over an explicit client
    state; every call they make on a stream is recorded in a trace.

    The Go library pieces the client is built from ([errors], [io], [bufio],
    [sync], [net]) are not part of the repository; each is modelled in a
    module of its own, after the library's documented behaviour. *)

From Stdlib Require Import Strings.String Strings.Byte.
From Stdlib Require Import ZArith Lia Bool Arith List.
Import ListNotations.

Set Implicit Arguments.
Set Warnings "-register-all".
Open Scope string_scope.
Open Scope list_scope.
Open Scope nat_scope.

(** ** Go's [error] values *)

(** The sentinel errors the client tests for or produces.  A sentinel is a
    package-level variable made by [errors.New]; two sentinels are the same
    error exactly when they are the same variable. *)
Inductive sentinel : Type :=
| io_EOF
| io_ErrNoProgress
| bufio_ErrBufferFull
| net_ErrClosed
| ErrEOT          (* telnet.go:30 *)
| ErrConnClosed.  (* telnet.go:32 *)

(** An error is a sentinel, an error of the environment that wraps nothing
    ([OpError]), or the result of [fmt.Errorf]: its format string, the
    operands of its [%v] verbs and the errors wrapped by its [%w] verbs. *)
Inductive error : Type :=
| Sentinel (s : sentinel)
| OpError (msg : string)
| Errorf (format : string) (operands : list bool) (wrapped : list error).

Module errors.

Definition sentinel_eqb (a b : sentinel) : bool :=
  match a, b with
  | io_EOF, io_EOF
  | io_ErrNoProgress, io_ErrNoProgress
  | bufio_ErrBufferFull, bufio_ErrBufferFull
  | net_ErrClosed, net_ErrClosed
  | ErrEOT, ErrEOT
  | ErrConnClosed, ErrConnClosed => true
  | _, _ => false
  end.

(** [errors.Is(err, target)]: [err] is [target], or an error of the tree
    that [err] wraps is. *)
Fixpoint Is (err : error) (target : sentinel) : bool :=
  match err with
  | Sentinel s => sentinel_eqb s target
  | OpError _ => false
  | Errorf _ _ ws =>
      (fix any (l : list error) : bool :=
         match l with
         | [] => false
         | w :: l' => Is w target || any l'
         end) ws
  end.

(** [err == target], the comparison of two error values by identity. *)
Definition same (err : error) (target : sentinel) : bool :=
  match err with
  | Sentinel s => sentinel_eqb s target
  | _ => false
  end.

End errors.

(** ** The stream interfaces of package [io] *)

Module io.

(** [Read r n] is a call [r.Read(p)] with [len(p) = n]: the bytes stored in
    [p], the error, and the reader afterwards.  The contract of [io.Reader]
    has it return at most [n] bytes. *)
Class Reader (R : Type) := Read : R -> nat -> list byte * option error * R.

(** [Write w data] is a call [w.Write(data)]: the number of bytes written,
    the error, and the writer afterwards. *)
Class Writer (W : Type) := Write : W -> list byte -> nat * option error * W.

(** [Close t] is a call [t.Close()]. *)
Class Closer (T : Type) := Close : T -> option error * T.

End io.

(** ** [bytes.IndexByte] *)

Module bytes.

Fixpoint IndexByte (s : list byte) (c : byte) : option nat :=
  match s with
  | [] => None
  | x :: s' =>
      if Byte.eqb x c then Some 0
      else match IndexByte s' c with
           | Some i => Some (S i)
           | None => None
           end
  end.

End bytes.

(** ** The buffered reader of package [bufio] *)

Module bufio.

Definition defaultBufSize : nat := 4096.
Definition maxConsecutiveEmptyReads : nat := 100.

Section Reader.
Context {R : Type} `{io.Reader R}.

(** [buf] holds the unread bytes [b.buf[b.r:b.w]], [size] is [len(b.buf)],
    [err] the pending error of the last [Read].  [reads] counts the calls
    made on the underlying reader. *)
Record Reader : Type := mkReader
  { rd : R;
    buf : list byte;
    size : nat;
    err : option error;
    reads : nat }.

Definition NewReaderSize (r : R) (n : nat) : Reader :=
  {| rd := r; buf := []; size := Nat.max n 16; err := None; reads := 0 |}.

Definition NewReader (r : R) : Reader := NewReaderSize r defaultBufSize.

Definition Buffered (b : Reader) : nat := length (buf b).

(** The loop of [fill]: at most [i] calls of [Read], until one returns
    bytes or an error. *)
Fixpoint fill_loop (i : nat) (b : Reader) : Reader :=
  match i with
  | 0 =>
      {| rd := rd b; buf := buf b; size := size b;
         err := Some (Sentinel io_ErrNoProgress); reads := reads b |}
  | S i' =>
      let '(data, e, r') := io.Read (rd b) (size b - length (buf b)) in
      let b' := {| rd := r'; buf := buf b ++ data; size := size b;
                   err := err b; reads := S (reads b) |} in
      match e with
      | Some _ =>
          {| rd := rd b'; buf := buf b'; size := size b';
             err := e; reads := reads b' |}
      | None =>
          match data with
          | _ :: _ => b'
          | [] => fill_loop i' b'
          end
      end
  end.

Definition fill (b : Reader) : Reader := fill_loop maxConsecutiveEmptyReads b.

(** [ReadSlice]: search the buffer; give up the buffer with the pending
    error; give up a full buffer with [ErrBufferFull]; else [fill] and
    search again.  (The library searches from the end of what was
    already searched; that part holds no [delim].)  [fuel] bounds the
    number of rounds. *)
Fixpoint ReadSlice (fuel : nat) (b : Reader) (delim : byte)
  : option (list byte * option error * Reader) :=
  match fuel with
  | 0 => None
  | S fuel' =>
      match bytes.IndexByte (buf b) delim with
      | Some i =>
          Some (firstn (i + 1) (buf b), None,
                {| rd := rd b; buf := skipn (i + 1) (buf b); size := size b;
                   err := err b; reads := reads b |})
      | None =>
          match err b with
          | Some e =>
              Some (buf b, Some e,
                    {| rd := rd b; buf := []; size := size b;
                       err := None; reads := reads b |})
          | None =>
              if size b <=? Buffered b then
                Some (buf b, Some (Sentinel bufio_ErrBufferFull),
                      {| rd := rd b; buf := []; size := size b;
                         err := None; reads := reads b |})
              else ReadSlice fuel' (fill b) delim
          end
      end
  end.

(** [collectFragments]: call [ReadSlice] until it finds [delim] or fails
    with an error other than [ErrBufferFull], keeping the full buffers. *)
Fixpoint collectFragments (fuel : nat) (b : Reader) (delim : byte)
         (full : list byte)
  : option (list byte * option error * Reader) :=
  match fuel with
  | 0 => None
  | S fuel' =>
      match ReadSlice fuel b delim with
      | None => None
      | Some (frag, None, b') => Some (full ++ frag, None, b')
      | Some (frag, Some e, b') =>
          if errors.same e bufio_ErrBufferFull
          then collectFragments fuel' b' delim (full ++ frag)
          else Some (full ++ frag, Some e, b')
      end
  end.

Definition ReadBytes (fuel : nat) (b : Reader) (delim : byte)
  : option (list byte * option error * Reader) :=
  collectFragments fuel b delim [].

End Reader.

Arguments Reader R : clear implicits.

End bufio.


(** ** The reader/writer lock of package [sync] *)

Module sync.

(** A lock is held by any number of readers or by one writer.  The model is
    of one thread of control: an acquisition that cannot be granted at once
    is never granted, and is [None]. *)
Record RWMutex : Type := mkRWMutex
  { readers : nat;
    writer : bool }.

(** The zero value of [sync.RWMutex], an unlocked lock. *)
Definition zero : RWMutex := {| readers := 0; writer := false |}.

Definition RLock (m : RWMutex) : option RWMutex :=
  if writer m then None
  else Some {| readers := S (readers m); writer := false |}.

Definition RUnlock (m : RWMutex) : RWMutex :=
  {| readers := Nat.pred (readers m); writer := writer m |}.

Definition Lock (m : RWMutex) : option RWMutex :=
  if writer m then None
  else match readers m with
       | 0 => Some {| readers := 0; writer := true |}
       | S _ => None
       end.

Definition Unlock (m : RWMutex) : RWMutex :=
  {| readers := readers m; writer := false |}.

End sync.

(** ** Package [telnet] *)

Module telnet.

(** The three streams of a client, and the calls it makes on the outside
    world: a dial, and reads, writes and closes of its streams. *)
Inductive stream_id : Type := Input | Output | Connection.

Inductive call : Type :=
| Dial (network address : string) (timeout : Z)
| Rd (s : stream_id)
| Wr (s : stream_id) (data : list byte)
| Cl (s : stream_id).

(** How a method call ends: it returns, it waits for ever on the lock, or
    the model ran out of [fuel]. *)
Inductive run (A : Type) : Type :=
| Returns (a : A)
| Blocks
| OutOfFuel.
Arguments Blocks {A}.
Arguments OutOfFuel {A}.

Definition newline : byte := x0a.

Section ReadWrite.
Context {R : Type} `{io.Reader R}.

(** The [for] loop of [readOut] (telnet.go:154-172); [res] is the
    accumulator. *)
Fixpoint readOut_loop (fuel : nat) (reader : bufio.Reader R) (res : list byte)
  : option (list byte * option error * bufio.Reader R) :=
  match fuel with
  | 0 => None
  | S fuel' =>
      match bufio.ReadBytes fuel reader newline with
      | None => None
      | Some (line, err, reader) =>
          let res := res ++ line in
          match err with
          | Some e =>
              if errors.Is e io_EOF then
                if bufio.Buffered reader =? 0
                then Some ([], Some (Sentinel ErrEOT), reader)
                else readOut_loop fuel' reader res
              else if errors.Is e net_ErrClosed then
                Some ([], Some (Errorf "%w: %w" [] [Sentinel ErrConnClosed; e]),
                      reader)
              else
                Some ([], Some (Errorf "reading failed: %w" [] [e]), reader)
          | None =>
              if bufio.Buffered reader =? 0
              then Some (res, None, reader)
              else readOut_loop fuel' reader res
          end
      end
  end.

(** [readOut] (telnet.go:151-174): the data, the error, the reader [r] as
    the call leaves it, and the number of [Read] calls made on it. *)
Definition readOut (fuel : nat) (r : R)
  : option (list byte * option error * R * nat) :=
  match readOut_loop fuel (bufio.NewReader r) [] with
  | None => None
  | Some (data, err, reader) =>
      Some (data, err, bufio.rd reader, bufio.reads reader)
  end.

End ReadWrite.

(** [writeOut] (telnet.go:177-186). *)
Definition writeOut {W : Type} `{io.Writer W} (w : W) (data : list byte)
  : option error * W :=
  let '(_, err, w') := io.Write w data in
  match err with
  | Some e =>
      if errors.Is e net_ErrClosed
      then (Some (Errorf "%w: %w" [] [Sentinel ErrConnClosed; e]), w')
      else (Some (Errorf "unable to write out the data: %w" [] [e]), w')
  | None => (None, w')
  end.

Section Client.
Context {I O C : Type}.
Context `{io.Reader I} `{io.Closer I} `{io.Writer O}.
Context `{io.Reader C} `{io.Writer C} `{io.Closer C}.

(** The struct [client] (telnet.go:45-52); a [nil] stream is [None]. *)
Record client : Type := mkClient
  { mu : sync.RWMutex;
    address : string;
    timeout : Z;
    in_ : option I;
    out : option O;
    conn : option C }.

Definition set_mu (c : client) (m : sync.RWMutex) : client :=
  {| mu := m; address := address c; timeout := timeout c;
     in_ := in_ c; out := out c; conn := conn c |}.

Definition set_in (c : client) (i : option I) : client :=
  {| mu := mu c; address := address c; timeout := timeout c;
     in_ := i; out := out c; conn := conn c |}.

Definition set_out (c : client) (o : option O) : client :=
  {| mu := mu c; address := address c; timeout := timeout c;
     in_ := in_ c; out := o; conn := conn c |}.

Definition set_conn (c : client) (cn : option C) : client :=
  {| mu := mu c; address := address c; timeout := timeout c;
     in_ := in_ c; out := out c; conn := cn |}.

(** What a method hands back: its error ([None] is [nil]), the client
    afterwards, and the calls it made, in order. *)
Definition result : Type := option error * client * list call.

(** [NewClient] (telnet.go:56-63). *)
Definition NewClient (address : string) (timeout : Z)
           (in_ : option I) (out : option O) : client :=
  {| mu := sync.zero; address := address; timeout := timeout;
     in_ := in_; out := out; conn := None |}.

(** [Connect] (telnet.go:66-78), over the dial primitive [DialTimeout]. *)
Definition Connect (DialTimeout : string -> string -> Z -> C + error)
           (c : client) : run result :=
  match sync.RLock (mu c) with
  | None => Blocks
  | Some m =>
      let address := address c in
      let timeout := timeout c in
      let c := set_mu c (sync.RUnlock m) in
      let calls := [Dial "tcp" address timeout] in
      match DialTimeout "tcp" address timeout with
      | inr err =>
          Returns (Some (Errorf "connection failed: %w" [] [err]), c, calls)
      | inl conn =>
          match sync.Lock (mu c) with
          | None => Blocks
          | Some m =>
              let c := set_conn (set_mu c m) (Some conn) in
              Returns (None, set_mu c (sync.Unlock m), calls)
          end
      end
  end.

(** [Close] (telnet.go:81-102).  The deferred [Unlock] runs on every
    return. *)
Definition Close (c : client) : run result :=
  match sync.Lock (mu c) with
  | None => Blocks
  | Some m =>
      let c := set_mu c m in
      match conn c, in_ c with
      | Some cn, Some i =>
          let '(inErr, i') := io.Close i in
          let '(err, _) := io.Close cn in
          let err := match err with None => inErr | Some _ => err end in
          let c := set_conn (set_in c (Some i')) None in
          Returns (err, set_mu c (sync.Unlock m), [Cl Input; Cl Connection])
      | Some cn, None =>
          let '(err, _) := io.Close cn in
          let c := set_conn c None in
          Returns (err, set_mu c (sync.Unlock m), [Cl Connection])
      | None, Some i =>
          let '(err, i') := io.Close i in
          let c := set_conn (set_in c (Some i')) None in
          Returns (err, set_mu c (sync.Unlock m), [Cl Input])
      | None, None =>
          Returns (None, set_mu c (sync.Unlock m), [])
      end
  end.

Definition isNil {A : Type} (x : option A) : bool :=
  match x with None => true | Some _ => false end.

(** [Send] (telnet.go:105-127).  The return at line 108 leaves the read
    lock of line 106 held. *)
Definition Send (fuel : nat) (c : client) : run result :=
  match sync.RLock (mu c) with
  | None => Blocks
  | Some m =>
      let c := set_mu c m in
      match conn c, in_ c with
      | Some cn, Some i =>
          let c := set_mu c (sync.RUnlock m) in
          match readOut fuel i with
          | None => OutOfFuel
          | Some (data, err, i', n) =>
              let c := set_in c (Some i') in
              let calls := repeat (Rd Input) n in
              match err with
              | Some e => Returns (Some e, c, calls)
              | None =>
                  if length data =? 0
                  then Returns (Some (Sentinel ErrEOT), c, calls)
                  else
                    let '(err, cn') := writeOut cn data in
                    Returns (err, set_conn c (Some cn'),
                             calls ++ [Wr Connection data])
              end
          end
      | _, _ =>
          Returns (Some (Errorf
                           "nil parameter received: connection=%v, input_stream=%v"
                           [isNil (conn c); isNil (in_ c)] []),
                   c, [])
      end
  end.

(** [Receive] (telnet.go:130-148).  The return at line 133 leaves the read
    lock of line 131 held. *)
Definition Receive (fuel : nat) (c : client) : run result :=
  match sync.RLock (mu c) with
  | None => Blocks
  | Some m =>
      let c := set_mu c m in
      match conn c, out c with
      | Some cn, Some o =>
          let c := set_mu c (sync.RUnlock m) in
          match readOut fuel cn with
          | None => OutOfFuel
          | Some (data, err, cn', n) =>
              let c := set_conn c (Some cn') in
              let calls := repeat (Rd Connection) n in
              match err with
              | Some e => Returns (Some e, c, calls)
              | None =>
                  let '(err, o') := writeOut o data in
                  Returns (err, set_out c (Some o'), calls ++ [Wr Output data])
              end
          end
      | _, _ =>
          Returns (Some (Errorf
                           "nil parameter received: connection=%v, output_stream=%v"
                           [isNil (conn c); isNil (out c)] []),
                   c, [])
      end
  end.

End Client.

Arguments client I O C : clear implicits.
Arguments result I O C : clear implicits.

End telnet.

(** ** In-memory streams

    The streams the package's tests use ([bytes.Buffer] behind
    [io.NopCloser], a loopback connection) are described by what they will
    deliver and by what was done to them. *)

Module mem.

(** [pending] is what the next [Read] calls meet: each entry is the bytes
    ready at that time and the error reported once they are taken; past
    the last entry the stream is at end of stream.  [sent] collects the
    bytes written, [wfail] is the error every [Write] fails with, [closes]
    counts the [Close] calls and [close_results] gives their errors, call
    by call ([nil] past its end). *)
Record stream : Type := mkStream
  { pending : list (list byte * option error);
    sent : list byte;
    wfail : option error;
    closes : nat;
    close_results : list (option error) }.

Definition Read (s : stream) (n : nat) : list byte * option error * stream :=
  match pending s with
  | [] => ([], Some (Sentinel io_EOF), s)
  | (data, e) :: rest =>
      if length data <=? n then
        (data, e,
         {| pending := rest; sent := sent s; wfail := wfail s;
            closes := closes s; close_results := close_results s |})
      else
        (firstn n data, None,
         {| pending := (skipn n data, e) :: rest; sent := sent s;
            wfail := wfail s; closes := closes s;
            close_results := close_results s |})
  end.

Definition Write (s : stream) (data : list byte) : nat * option error * stream :=
  match wfail s with
  | Some e => (0, Some e, s)
  | None =>
      (length data, None,
       {| pending := pending s; sent := sent s ++ data; wfail := None;
          closes := closes s; close_results := close_results s |})
  end.

Definition Close (s : stream) : option error * stream :=
  (nth (closes s) (close_results s) None,
   {| pending := pending s; sent := sent s; wfail := wfail s;
      closes := S (closes s); close_results := close_results s |}).

#[global] Instance stream_Reader : io.Reader stream := Read.
#[global] Instance stream_Writer : io.Writer stream := Write.
#[global] Instance stream_Closer : io.Closer stream := Close.

(** What is left to read: every pending entry counts for one, plus its
    bytes; a buffered reader adds the bytes it holds. *)
Fixpoint weight (p : list (list byte * option error)) : nat :=
  match p with
  | [] => 0
  | (data, _) :: rest => S (length data + weight rest)
  end.

Definition remaining (r : bufio.Reader stream) : nat :=
  weight (pending (bufio.rd r)) + length (bufio.buf r).

(** The bytes a stream still holds, in order; the bytes a buffered reader
    and its stream still hold. *)
Definition bytes_of (p : list (list byte * option error)) : list byte :=
  concat (map fst p).

Definition content (r : bufio.Reader stream) : list byte :=
  bufio.buf r ++ bytes_of (pending (bufio.rd r)).

(** A stream is clean when every [Read] it has in store brings bytes and
    no error (its end of stream comes after the last of them). *)
Definition clean (p : list (list byte * option error)) : bool :=
  forallb (fun x => match x with
                    | (_ :: _, None) => true
                    | _ => false
                    end) p.

(** A buffered reader over a clean stream holds no error, or the end of
    stream it met when the stream had nothing left. *)
Definition good (r : bufio.Reader stream) : Prop :=
  clean (pending (bufio.rd r)) = true /\
  (bufio.err r = None \/
   (bufio.err r = Some (Sentinel io_EOF) /\ pending (bufio.rd r) = [])).

(** A byte slice that is empty or ends in [c]. *)
Definition ends_in (c : byte) (l : list byte) : Prop :=
  l = [] \/ exists t, l = t ++ [c].

(** Reading leaves the writing and closing side of a stream alone. *)
Definition same_sink (s s' : stream) : Prop :=
  sent s' = sent s /\ wfail s' = wfail s /\
  closes s' = closes s /\ close_results s' = close_results s.

(** Whether a slice ends in the byte [c]. *)
Fixpoint ends_inb (c : byte) (l : list byte) : bool :=
  match l with
  | [] => false
  | x :: l' =>
      match l' with
      | [] => Byte.eqb x c
      | _ :: _ => ends_inb c l'
      end
  end.

(** The length of the line left unfinished when [l] comes after [held]
    bytes of an unfinished line. *)
Fixpoint unfinished (c : byte) (l : list byte) (held : nat) : nat :=
  match l with
  | [] => held
  | x :: l' =>
      if Byte.eqb x c then unfinished c l' 0 else unfinished c l' (S held)
  end.

(** An unfinished line that fills the buffer is taken out of it. *)
Definition carry (h : nat) : nat :=
  if h =? bufio.defaultBufSize then 0 else h.

(** Where one [readOut] stops, stated apart from the code of [readOut]
    (the two are proved to agree on streams that deliver their bytes
    without error: [readOut_exact]).  Each [Read] asks for the room left
    in the buffer of [bufio.defaultBufSize] bytes beside the [held] bytes
    of the unfinished line; the reads end with the first that brings bytes
    ending in a newline, or at the end of the stream; the result is the
    stream they leave. *)
Fixpoint after_reads (fuel held : nat) (s : stream) : stream :=
  match fuel with
  | 0 => s
  | S fuel' =>
      let '(data, _, s') := Read s (bufio.defaultBufSize - held) in
      match data with
      | [] => s'
      | _ :: _ =>
          if ends_inb telnet.newline data then s'
          else
            after_reads fuel' (carry (unfinished telnet.newline data held)) s'
      end
  end.

Definition after_readOut (s : stream) : stream :=
  after_reads (weight (pending s)) 0 s.

(** The stream one [readOut] leaves, seen from a buffered reader in the
    course of it: the reader's stream as it is when the buffer ends in a
    newline, the stream after the reads still to come otherwise. *)
Definition settled (k : nat) (r : bufio.Reader stream) : stream :=
  if ends_inb telnet.newline (bufio.buf r) then bufio.rd r
  else
    after_reads k (carry (unfinished telnet.newline (bufio.buf r) 0))
                (bufio.rd r).

(** The state of a buffered reader in the course of one [readOut] on a
    clean stream. *)
Definition in_course (r : bufio.Reader stream) : Prop :=
  good r /\
  bufio.size r = bufio.defaultBufSize /\
  length (bufio.buf r) <= bufio.size r.

(** [bytes.NewBufferString(s)] behind [io.NopCloser]: all of [s] is ready,
    and [Close] never fails. *)
Definition buffer (s : list byte) : stream :=
  {| pending := match s with [] => [] | _ => [(s, None)] end;
     sent := []; wfail := None; closes := 0; close_results := [] |}.

(** An [*os.File] such as [os.Stdin]: the second [Close] fails. *)
Definition file (s : list byte) : stream :=
  {| pending := match s with [] => [] | _ => [(s, None)] end;
     sent := []; wfail := None; closes := 0;
     close_results := [None; Some (OpError "file already closed")] |}.

End mem.

(** ** A source that delivers nothing

    Its [Read] returns no byte and no error, every time. *)

Module idle.

Inductive source : Type := Idle.

#[global] Instance source_Reader : io.Reader source :=
  fun s _ => ([], None, s).

End idle.

(** ** The dial primitive of package [net] *)

Module net.

(** What listens where: at an address, nothing ([None], the dial is
    refused), or a peer whose connection is established after [delay]
    nanoseconds and then is the stream [peer]. *)
Definition hosts : Type := string -> option (Z * mem.stream).

(** [net.DialTimeout(network, address, timeout)] is
    [Dialer{Timeout: timeout}.Dial(network, address)].  A [Timeout] other
    than zero sets the deadline [now + Timeout]; a deadline already past
    fails the dial; the zero [Timeout] sets no deadline at all. *)
Definition DialTimeout (h : hosts) (network address : string) (timeout : Z)
  : mem.stream + error :=
  if (timeout <? 0)%Z then inr (OpError "dial tcp: i/o timeout")
  else
    match h address with
    | None => inr (OpError "dial tcp: connect: connection refused")
    | Some (delay, peer) =>
        if (timeout =? 0)%Z || (delay <? timeout)%Z then inl peer
        else inr (OpError "dial tcp: i/o timeout")
    end.

End net.

(** ** The orchestrator (cmd/main.go)

    The [switch] of main.go:90-97 sorts the error a relay loop ended with. *)

Module main.

Inductive verdict : Type := EOFReceived | ConnectionClosed | Unexpected.

Definition classify (err : error) : verdict :=
  if errors.Is err ErrEOT then EOFReceived
  else if errors.Is err ErrConnClosed then ConnectionClosed
  else Unexpected.

Section Loops.
Context {I O C : Type}.
Context `{io.Reader I} `{io.Closer I} `{io.Writer O}.
Context `{io.Reader C} `{io.Writer C} `{io.Closer C}.

(** One goroutine of main.go:56-68 and 71-83, around [step] ([Send] or
    [Receive]): at each pass, return if the context is done, else make
    the step, and on an error send it to [errCh] and return.  [done pass]
    says whether the context is found done at that pass; the result holds
    the error sent to [errCh] ([None] when the loop ended on the context),
    the client, and the calls of all steps.  [rounds] bounds the passes. *)
Fixpoint loop (step : telnet.client I O C -> telnet.run (telnet.result I O C))
         (rounds : nat) (done : nat -> bool) (pass : nat)
         (c : telnet.client I O C) : telnet.run (telnet.result I O C) :=
  match rounds with
  | 0 => telnet.OutOfFuel
  | S rounds' =>
      if done pass then telnet.Returns (None, c, [])
      else
        match step c with
        | telnet.Returns (Some err, c', calls) =>
            telnet.Returns (Some err, c', calls)
        | telnet.Returns (None, c', calls) =>
            match loop step rounds' done (S pass) c' with
            | telnet.Returns (e, c'', calls') =>
                telnet.Returns (e, c'', calls ++ calls')
            | telnet.Blocks => telnet.Blocks
            | telnet.OutOfFuel => telnet.OutOfFuel
            end
        | telnet.Blocks => telnet.Blocks
        | telnet.OutOfFuel => telnet.OutOfFuel
        end
  end.

(** The sender goroutine (main.go:56-68). *)
Definition sender (fuel rounds : nat) (done : nat -> bool)
           (c : telnet.client I O C) : telnet.run (telnet.result I O C) :=
  loop (telnet.Send fuel) rounds done 0 c.

(** The receiving goroutine (main.go:71-83). *)
Definition receiver (fuel rounds : nat) (done : nat -> bool)
           (c : telnet.client I O C) : telnet.run (telnet.result I O C) :=
  loop (telnet.Receive fuel) rounds done 0 c.

End Loops.

End main.

(** ** The clients of the package's tests *)

Definition b (s : string) : list byte := list_byte_of_string s.
Definition LF : list byte := [x0a].

Definition hello : list byte := b "hello" ++ LF.
Definition world : list byte := b "world" ++ LF.

Definition second : Z := 1000000000.
Definition millisecond : Z := 1000000.

Definition loopback : string := "127.0.0.1:4242".

(** A listener on [loopback] whose accepted connection is [peer]. *)
Definition listener (peer : mem.stream) : net.hosts :=
  fun address =>
    if String.eqb address loopback then Some (1000%Z, peer) else None.

(** The client of a test after its [Connect]: [NewClient] with a timeout of
    ten seconds, and the accepted connection stored. *)
Definition connected (i o : option mem.stream) (peer : mem.stream)
  : telnet.client mem.stream mem.stream mem.stream :=
  telnet.set_conn (telnet.NewClient loopback (10 * second) i o) (Some peer).

(** The client of [TestClient_Connect]: no streams, a given timeout. *)
Definition unconnected (timeout : Z)
  : telnet.client mem.stream mem.stream mem.stream :=
  telnet.NewClient loopback timeout None None.

(** A connection whose [Close] fails, and an input whose [Close] fails. *)
Definition broken (msg : string) : mem.stream :=
  {| mem.pending := []; mem.sent := []; mem.wfail := None; mem.closes := 0;
     mem.close_results := [Some (OpError msg)] |}.

(** 4098 bytes, all of them ready: a line that fills the 4096 bytes of the
    buffered reader, and a second line. *)
Definition two_lines : list byte := repeat x61 4095 ++ LF ++ b "b" ++ LF.

(** The error of a read or a write on a connection that was closed: it
    wraps [net.ErrClosed]. *)
Definition use_of_closed : error :=
  Errorf "use of closed network connection" [] [Sentinel net_ErrClosed].

(** A connection that was closed under the client: reads and writes fail
    with [use_of_closed]. *)
Definition closed_conn : mem.stream :=
  {| mem.pending := [([], Some use_of_closed)]; mem.sent := [];
     mem.wfail := Some use_of_closed; mem.closes := 1;
     mem.close_results := [] |}.

(** A context that is never done. *)
Definition never : nat -> bool := fun _ => false.

(** The bytes of [hello] and [world] as a connection may deliver them: in
    three segments that cut both lines; and [hello] in two segments. *)
Definition in_pieces : mem.stream :=
  {| mem.pending := [(b "hel", None); (b "lo" ++ LF ++ b "wor", None);
                     (b "ld" ++ LF, None)];
     mem.sent := []; mem.wfail := None; mem.closes := 0;
     mem.close_results := [] |}.

Definition hello_in_two : mem.stream :=
  {| mem.pending := [(b "hel", None); (b "lo" ++ LF, None)];
     mem.sent := []; mem.wfail := None; mem.closes := 0;
     mem.close_results := [] |}.

(** A single line of 4097 bytes: one more than the buffered reader
    holds. *)
Definition long_line : list byte := repeat x61 4096 ++ LF.

(** A connected client whose input never delivers. *)
Definition waiting : telnet.client idle.source mem.stream mem.stream :=
  telnet.set_conn (telnet.NewClient loopback (10 * second) (Some idle.Idle) None)
                  (Some (mem.buffer [])).

(** The configuration errors of [Send] and [Receive], the two errors for
    a closed connection or a failed transfer, and the error of a failed
    write. *)
Definition nil_input (connection input_stream : bool) : error :=
  Errorf "nil parameter received: connection=%v, input_stream=%v"
         [connection; input_stream] [].

Definition nil_output (connection output_stream : bool) : error :=
  Errorf "nil parameter received: connection=%v, output_stream=%v"
         [connection; output_stream] [].

Definition conn_closed (cause : error) : error :=
  Errorf "%w: %w" [] [Sentinel ErrConnClosed; cause].

Definition reading_failed (cause : error) : error :=
  Errorf "reading failed: %w" [] [cause].

Definition write_failed (cause : error) : error :=
  Errorf "unable to write out the data: %w" [] [cause].

(** * Properties *)

Unset Implicit Arguments.

(** ** The buffered reader *)

Section BufioFacts.
Context {R : Type} `{io.Reader R}.

Lemma IndexByte_lt (s : list byte) (c : byte) (i : nat) :
  bytes.IndexByte s c = Some i -> i < length s.
Proof.
  revert i; induction s as [|x s IH]; simpl; intros i Hi; [discriminate|].
  destruct (Byte.eqb x c).
  - injection Hi as <-; lia.
  - destruct (bytes.IndexByte s c) as [j|]; [|discriminate].
    injection Hi as <-. specialize (IH j eq_refl); lia.
Qed.

Lemma firstn_succ_nonempty (A : Type) (l : list A) (i : nat) :
  i < length l -> firstn (i + 1) l <> [].
Proof.
  destruct l as [|a l]; simpl; [lia|].
  rewrite Nat.add_1_r; simpl; discriminate.
Qed.

Lemma app_nonempty_r (A : Type) (l m : list A) : m <> [] -> l ++ m <> [].
Proof. destruct l; simpl; [tauto | discriminate]. Qed.

(** A [ReadSlice] that ends without error found the delimiter, so its
    line holds at least that byte. *)
Lemma ReadSlice_ok_nonempty (fuel : nat) (b b' : bufio.Reader R)
      (delim : byte) (line : list byte) :
  bufio.ReadSlice fuel b delim = Some (line, None, b') -> line <> [].
Proof.
  revert b; induction fuel as [|fuel IH]; simpl; intros b Hrs; [discriminate|].
  destruct (bytes.IndexByte (bufio.buf b) delim) as [i|] eqn:Hi.
  - injection Hrs as <- _. apply firstn_succ_nonempty. eapply IndexByte_lt; eassumption.
  - destruct (bufio.err b); [discriminate|].
    destruct (bufio.size b <=? bufio.Buffered b); [discriminate|].
    eapply IH; eassumption.
Qed.

Lemma collectFragments_ok_nonempty (fuel : nat) (b b' : bufio.Reader R)
      (delim : byte) (full line : list byte) :
  bufio.collectFragments fuel b delim full = Some (line, None, b') -> line <> [].
Proof.
  revert b full; induction fuel as [|fuel IH]; intros b full Hcf; [discriminate|].
  cbn [bufio.collectFragments] in Hcf.
  destruct (bufio.ReadSlice (S fuel) b delim) as [[[frag [e|]] b1]|] eqn:Hrs;
    [ | | discriminate].
  - destruct (errors.same e bufio_ErrBufferFull); [|discriminate].
    eapply IH; eassumption.
  - injection Hcf as <- _.
    apply app_nonempty_r. eapply ReadSlice_ok_nonempty; eassumption.
Qed.

Lemma readOut_loop_ok_nonempty (fuel : nat) (reader reader' : bufio.Reader R)
      (res data : list byte) :
  telnet.readOut_loop fuel reader res = Some (data, None, reader') -> data <> [].
Proof.
  revert reader res; induction fuel as [|fuel IH]; intros reader res Hl;
    [discriminate|].
  cbn [telnet.readOut_loop] in Hl. unfold bufio.ReadBytes in Hl.
  destruct (bufio.collectFragments (S fuel) reader telnet.newline [])
    as [[[line [e|]] r1]|] eqn:Hcf; [ | | discriminate].
  - destruct (errors.Is e io_EOF).
    + destruct (bufio.Buffered r1 =? 0); [discriminate | eapply IH; eassumption].
    + destruct (errors.Is e net_ErrClosed); discriminate.
  - destruct (bufio.Buffered r1 =? 0).
    + injection Hl as <- _.
      apply app_nonempty_r. eapply collectFragments_ok_nonempty; eassumption.
    + eapply IH; eassumption.
Qed.

Lemma readOut_ok_nonempty (fuel : nat) (r r' : R) (data : list byte) (n : nat) :
  telnet.readOut fuel r = Some (data, None, r', n) -> data <> [].
Proof.
  unfold telnet.readOut.
  destruct (telnet.readOut_loop fuel (bufio.NewReader r) [])
    as [[[d e] rd']|] eqn:Hl; [|discriminate].
  intros Heq; injection Heq as -> -> _ _.
  eapply readOut_loop_ok_nonempty; eassumption.
Qed.

(** [readOut] hands back no data with an error. *)
Lemma readOut_loop_err_no_data (fuel : nat) (reader reader' : bufio.Reader R)
      (res data : list byte) (e : error) :
  telnet.readOut_loop fuel reader res = Some (data, Some e, reader') -> data = [].
Proof.
  revert reader res; induction fuel as [|fuel IH]; intros reader res Hl;
    [discriminate|].
  cbn [telnet.readOut_loop] in Hl.
  destruct (bufio.ReadBytes (S fuel) reader telnet.newline)
    as [[[line [e1|]] r1]|]; [ | | discriminate].
  - destruct (errors.Is e1 io_EOF).
    + destruct (bufio.Buffered r1 =? 0).
      * injection Hl as <- _ _; reflexivity.
      * eapply IH; eassumption.
    + destruct (errors.Is e1 net_ErrClosed);
        injection Hl as <- _ _; reflexivity.
  - destruct (bufio.Buffered r1 =? 0); [discriminate|].
    eapply IH; eassumption.
Qed.

Lemma readOut_err_no_data (fuel : nat) (r r' : R) (data : list byte)
      (e : error) (n : nat) :
  telnet.readOut fuel r = Some (data, Some e, r', n) -> data = [].
Proof.
  unfold telnet.readOut.
  destruct (telnet.readOut_loop fuel (bufio.NewReader r) [])
    as [[[d e1] rd']|] eqn:Hl; [|discriminate].
  intros Heq; injection Heq as -> -> _ _.
  eapply readOut_loop_err_no_data; eassumption.
Qed.

(** *** One round of the buffered reader *)

Lemma fill_loop_S (i : nat) (b : bufio.Reader R) :
  bufio.fill_loop (S i) b =
  let '(data, e, r') :=
    io.Read (bufio.rd b) (bufio.size b - length (bufio.buf b)) in
  let b' := bufio.mkReader r' (bufio.buf b ++ data) (bufio.size b)
                           (bufio.err b) (S (bufio.reads b)) in
  match e with
  | Some _ =>
      bufio.mkReader (bufio.rd b') (bufio.buf b') (bufio.size b') e
                     (bufio.reads b')
  | None => match data with
            | _ :: _ => b'
            | [] => bufio.fill_loop i b'
            end
  end.
Proof. reflexivity. Qed.

(** A [Read] that brings bytes or an error ends [fill] at once. *)
Lemma fill_step (b : bufio.Reader R) (data : list byte) (e : option error)
      (r' : R) :
  io.Read (bufio.rd b) (bufio.size b - length (bufio.buf b)) = (data, e, r') ->
  e <> None \/ data <> [] ->
  bufio.fill b =
  bufio.mkReader r' (bufio.buf b ++ data) (bufio.size b)
                 (match e with Some _ => e | None => bufio.err b end)
                 (S (bufio.reads b)).
Proof.
  intros Hr Hne. unfold bufio.fill.
  change bufio.maxConsecutiveEmptyReads with (S 99).
  rewrite fill_loop_S, Hr.
  destruct e as [e|]; [reflexivity|].
  destruct data; [destruct Hne; congruence | reflexivity].
Qed.

Lemma ReadSlice_found (fuel : nat) (b : bufio.Reader R) (delim : byte)
      (i : nat) :
  bytes.IndexByte (bufio.buf b) delim = Some i ->
  bufio.ReadSlice (S fuel) b delim =
  Some (firstn (i + 1) (bufio.buf b), None,
        bufio.mkReader (bufio.rd b) (skipn (i + 1) (bufio.buf b))
                       (bufio.size b) (bufio.err b) (bufio.reads b)).
Proof. intros Hi. cbn [bufio.ReadSlice]. rewrite Hi. reflexivity. Qed.

Lemma ReadSlice_pending (fuel : nat) (b : bufio.Reader R) (delim : byte)
      (e : error) :
  bytes.IndexByte (bufio.buf b) delim = None ->
  bufio.err b = Some e ->
  bufio.ReadSlice (S fuel) b delim =
  Some (bufio.buf b, Some e,
        bufio.mkReader (bufio.rd b) [] (bufio.size b) None (bufio.reads b)).
Proof. intros Hi He. cbn [bufio.ReadSlice]. rewrite Hi, He. reflexivity. Qed.

Lemma ReadSlice_fill (fuel : nat) (b : bufio.Reader R) (delim : byte) :
  bytes.IndexByte (bufio.buf b) delim = None ->
  bufio.err b = None ->
  length (bufio.buf b) < bufio.size b ->
  bufio.ReadSlice (S fuel) b delim = bufio.ReadSlice fuel (bufio.fill b) delim.
Proof.
  intros Hi He Hlt. cbn [bufio.ReadSlice]. rewrite Hi, He.
  unfold bufio.Buffered.
  destruct (Nat.leb_spec (bufio.size b) (length (bufio.buf b))); [lia|].
  reflexivity.
Qed.

Lemma Is_EOF_not_full (e : error) :
  errors.Is e io_EOF = true -> errors.same e bufio_ErrBufferFull = false.
Proof. destruct e as [[]| |]; simpl; congruence. Qed.

Lemma defaultBufSize_pos : 0 < bufio.defaultBufSize.
Proof. apply Nat.lt_0_succ. Qed.

(** The first [Read] of a fresh reader asks for [defaultBufSize] bytes. *)
Lemma NewReader_fill (r r' : R) (data : list byte) (e : option error) :
  io.Read r bufio.defaultBufSize = (data, e, r') ->
  e <> None \/ data <> [] ->
  bufio.fill (bufio.NewReader r) =
  bufio.mkReader r' data bufio.defaultBufSize e 1.
Proof.
  intros Hr Hne.
  rewrite (fill_step (bufio.NewReader r) data e r' Hr Hne).
  destruct e; reflexivity.
Qed.

(** End of stream at the first [Read]: [readOut] answers with the
    end-of-transmission sentinel. *)
Lemma readOut_eof (fuel : nat) (r r' : R) (e : error) :
  2 <= fuel ->
  io.Read r bufio.defaultBufSize = ([], Some e, r') ->
  errors.Is e io_EOF = true ->
  telnet.readOut fuel r = Some ([], Some (Sentinel ErrEOT), r', 1).
Proof.
  intros Hfuel Hr He.
  destruct fuel as [|[|fuel]]; [lia | lia | clear Hfuel].
  unfold telnet.readOut. cbn [telnet.readOut_loop].
  unfold bufio.ReadBytes. cbn [bufio.collectFragments].
  rewrite ReadSlice_fill;
    [ | reflexivity | reflexivity | exact defaultBufSize_pos ].
  rewrite (NewReader_fill _ _ _ _ Hr) by (left; discriminate).
  rewrite (ReadSlice_pending fuel _ telnet.newline e) by reflexivity.
  rewrite (Is_EOF_not_full _ He).
  cbn [app bufio.buf bufio.rd bufio.reads bufio.size].
  rewrite He. reflexivity.
Qed.

(** *** A buffer that ends in the delimiter is drained line by line *)

Lemma IndexByte_ends (l : list byte) (c : byte) :
  exists i : nat,
    bytes.IndexByte (l ++ [c]) c = Some i /\
    ((skipn (i + 1) (l ++ [c]) = [] /\ firstn (i + 1) (l ++ [c]) = l ++ [c]) \/
     (exists l2 : list byte,
         skipn (i + 1) (l ++ [c]) = l2 ++ [c] /\ length l2 < length l)).
Proof.
  induction l as [|x l IH]; cbn [app bytes.IndexByte].
  - exists 0. rewrite (Byte.byte_dec_lb (eq_refl c)). split; [reflexivity|].
    left; split; reflexivity.
  - destruct (Byte.eqb x c) eqn:Hx.
    + exists 0. split; [reflexivity|]. right. exists l. split; [reflexivity|].
      simpl; lia.
    + destruct IH as (i & Hi & Hrest). exists (S i). rewrite Hi.
      split; [reflexivity|]. cbn [Nat.add skipn firstn].
      destruct Hrest as [[Hs Hf] | (l2 & Hs & Hlen)].
      * left. rewrite Hs, Hf. split; reflexivity.
      * right. exists l2. rewrite Hs. split; [reflexivity|]. simpl; lia.
Qed.

Lemma readOut_loop_buffered (fuel : nat) :
  forall (reader : bufio.Reader R) (res l : list byte),
    bufio.buf reader = l ++ [telnet.newline] ->
    length l < fuel ->
    telnet.readOut_loop fuel reader res =
    Some (res ++ bufio.buf reader, None,
          bufio.mkReader (bufio.rd reader) [] (bufio.size reader)
                         (bufio.err reader) (bufio.reads reader)).
Proof.
  induction fuel as [|fuel IH]; intros reader res l Hbuf Hlen; [lia|].
  destruct (IndexByte_ends l telnet.newline) as (i & Hi & Hrest).
  rewrite <- Hbuf in Hi, Hrest.
  cbn [telnet.readOut_loop]. unfold bufio.ReadBytes.
  cbn [bufio.collectFragments].
  rewrite (ReadSlice_found fuel reader telnet.newline i Hi).
  cbn [app]. unfold bufio.Buffered. cbn [bufio.buf].
  destruct Hrest as [[Hs Hf] | (l2 & Hs & Hlen2)].
  - rewrite Hs, Hf. reflexivity.
  - replace (length (skipn (i + 1) (bufio.buf reader)) =? 0) with false
      by (symmetry; apply Nat.eqb_neq; rewrite Hs, length_app; simpl; lia).
    erewrite IH; [ | cbn [bufio.buf]; exact Hs | lia ].
    cbn [bufio.buf bufio.rd bufio.size bufio.err bufio.reads].
    rewrite <- app_assoc, firstn_skipn. reflexivity.
Qed.

(** The first [Read] brings a chunk that ends in a newline: [readOut]
    returns that chunk, after this one [Read]. *)
Lemma readOut_lines (fuel : nat) (r r' : R) (l : list byte)
      (e : option error) :
  length l + 1 < fuel ->
  io.Read r bufio.defaultBufSize = (l ++ [telnet.newline], e, r') ->
  telnet.readOut fuel r = Some (l ++ [telnet.newline], None, r', 1).
Proof.
  intros Hfuel Hr.
  destruct fuel as [|[|fuel]]; [lia | lia | ].
  assert (Hne : e <> None \/ l ++ [telnet.newline] <> [])
    by (right; destruct l; discriminate).
  pose proof (NewReader_fill _ _ _ _ Hr Hne) as Hfill.
  set (b1 := bufio.mkReader r' (l ++ [telnet.newline]) bufio.defaultBufSize
                            e 1) in Hfill.
  destruct (IndexByte_ends l telnet.newline) as (i & Hi & _).
  (* the first round is the round of the filled reader *)
  assert (Hfirst :
            telnet.readOut_loop (S (S fuel)) (bufio.NewReader r) [] =
            telnet.readOut_loop (S (S fuel)) (bufio.fill (bufio.NewReader r)) []).
  { cbn [telnet.readOut_loop]. unfold bufio.ReadBytes.
    cbn [bufio.collectFragments].
    rewrite ReadSlice_fill;
      [ | reflexivity | reflexivity | exact defaultBufSize_pos ].
    rewrite Hfill.
    rewrite (ReadSlice_found fuel b1 telnet.newline i Hi).
    rewrite (ReadSlice_found (S fuel) b1 telnet.newline i Hi).
    reflexivity. }
  unfold telnet.readOut. rewrite Hfirst, Hfill.
  rewrite (readOut_loop_buffered (S (S fuel)) b1 [] l eq_refl) by lia.
  reflexivity.
Qed.

(** With an error pending, the error [ReadSlice] returns is that one. *)
Lemma ReadSlice_returns_pending (fuel : nat) (b b' : bufio.Reader R)
      (delim : byte) (line : list byte) (e0 e : error) :
  bufio.err b = Some e0 ->
  bufio.ReadSlice fuel b delim = Some (line, Some e, b') ->
  e0 = e.
Proof.
  intros He0. destruct fuel as [|fuel]; [discriminate|].
  cbn [bufio.ReadSlice].
  destruct (bytes.IndexByte (bufio.buf b) delim); [discriminate|].
  rewrite He0. congruence.
Qed.

(** *** More fuel never changes a result *)

Lemma ReadSlice_mono (fuel : nat) :
  forall (fuel' : nat) (b : bufio.Reader R) (delim : byte)
         (x : list byte * option error * bufio.Reader R),
    fuel <= fuel' ->
    bufio.ReadSlice fuel b delim = Some x ->
    bufio.ReadSlice fuel' b delim = Some x.
Proof.
  induction fuel as [|fuel IH]; intros fuel' b delim x Hle Hrs; [discriminate|].
  destruct fuel' as [|fuel']; [lia|].
  cbn [bufio.ReadSlice] in Hrs |- *.
  destruct (bytes.IndexByte (bufio.buf b) delim); [exact Hrs|].
  destruct (bufio.err b); [exact Hrs|].
  destruct (bufio.size b <=? bufio.Buffered b); [exact Hrs|].
  apply IH; [lia | exact Hrs].
Qed.

Lemma collectFragments_mono (fuel : nat) :
  forall (fuel' : nat) (b : bufio.Reader R) (delim : byte) (full : list byte)
         (x : list byte * option error * bufio.Reader R),
    fuel <= fuel' ->
    bufio.collectFragments fuel b delim full = Some x ->
    bufio.collectFragments fuel' b delim full = Some x.
Proof.
  induction fuel as [|fuel IH]; intros fuel' b delim full x Hle Hcf;
    [discriminate|].
  destruct fuel' as [|fuel']; [lia|].
  cbn [bufio.collectFragments] in Hcf |- *.
  destruct (bufio.ReadSlice (S fuel) b delim) as [[[frag e] b1]|] eqn:Hrs;
    [|discriminate].
  rewrite (ReadSlice_mono (S fuel) (S fuel') b delim _ Hle Hrs).
  destruct e as [e|]; [|exact Hcf].
  destruct (errors.same e bufio_ErrBufferFull); [|exact Hcf].
  apply IH; [lia | exact Hcf].
Qed.

Lemma readOut_loop_mono (fuel : nat) :
  forall (fuel' : nat) (reader : bufio.Reader R) (res : list byte)
         (x : list byte * option error * bufio.Reader R),
    fuel <= fuel' ->
    telnet.readOut_loop fuel reader res = Some x ->
    telnet.readOut_loop fuel' reader res = Some x.
Proof.
  induction fuel as [|fuel IH]; intros fuel' reader res x Hle Hl;
    [discriminate|].
  destruct fuel' as [|fuel']; [lia|].
  cbn [telnet.readOut_loop] in Hl |- *. unfold bufio.ReadBytes in Hl |- *.
  destruct (bufio.collectFragments (S fuel) reader telnet.newline [])
    as [[[line e] r1]|] eqn:Hcf; [|discriminate].
  rewrite (collectFragments_mono (S fuel) (S fuel') reader _ [] _ Hle Hcf).
  destruct e as [e|].
  - destruct (errors.Is e io_EOF); [|exact Hl].
    destruct (bufio.Buffered r1 =? 0); [exact Hl|].
    apply IH; [lia | exact Hl].
  - destruct (bufio.Buffered r1 =? 0); [exact Hl|].
    apply IH; [lia | exact Hl].
Qed.

(** What [readOut] returns does not depend on the fuel it was given. *)
Lemma readOut_mono (fuel fuel' : nat) (r : R)
      (x : list byte * option error * R * nat) :
  fuel <= fuel' ->
  telnet.readOut fuel r = Some x -> telnet.readOut fuel' r = Some x.
Proof.
  intros Hle. unfold telnet.readOut.
  destruct (telnet.readOut_loop fuel (bufio.NewReader r) [])
    as [[[d e] rd']|] eqn:Hl; [|discriminate].
  rewrite (readOut_loop_mono fuel fuel' _ [] _ Hle Hl). exact (fun H => H).
Qed.

End BufioFacts.

(** ** Termination on in-memory streams *)

Section Termination.

(** A [Read] with room for a byte either meets the end of the stream, or
    takes something from what is pending. *)
Lemma mem_Read_spec (s s' : mem.stream) (n : nat) (data : list byte)
      (e : option error) :
  0 < n ->
  mem.Read s n = (data, e, s') ->
  (data = [] /\ e = Some (Sentinel io_EOF) /\ s' = s) \/
  (mem.weight (mem.pending s') + length data <= mem.weight (mem.pending s) /\
   mem.weight (mem.pending s') < mem.weight (mem.pending s) /\
   (e <> None ->
    mem.weight (mem.pending s') + length data < mem.weight (mem.pending s))).
Proof.
  intros Hn. unfold mem.Read.
  destruct (mem.pending s) as [|[d e0] rest] eqn:Hp.
  - intros Heq; injection Heq as <- <- <-. left. repeat split.
  - destruct (Nat.leb_spec (length d) n) as [Hle|Hgt];
      intros Heq; injection Heq as <- <- <-; right; cbn.
    + repeat split; lia.
    + rewrite length_firstn, length_skipn.
      repeat split; try lia. intros Hnone; congruence.
Qed.

Lemma fill_loop_progress (i : nat) :
  forall b : bufio.Reader mem.stream,
    length (bufio.buf b) < bufio.size b ->
    bufio.err b = None ->
    bufio.size (bufio.fill_loop i b) = bufio.size b /\
    mem.remaining (bufio.fill_loop i b) <= mem.remaining b /\
    mem.weight (mem.pending (bufio.rd (bufio.fill_loop i b)))
    <= mem.weight (mem.pending (bufio.rd b)) /\
    (bufio.err (bufio.fill_loop i b) <> None \/
     mem.weight (mem.pending (bufio.rd (bufio.fill_loop i b)))
     < mem.weight (mem.pending (bufio.rd b))) /\
    (forall e, bufio.err (bufio.fill_loop i b) = Some e ->
               errors.same e bufio_ErrBufferFull = true ->
               mem.remaining (bufio.fill_loop i b) < mem.remaining b).
Proof.
  induction i as [|i IH]; intros b Hroom Herr.
  - cbn. unfold mem.remaining; cbn. repeat split; try lia.
    + left; discriminate.
    + intros e [= <-]; discriminate.
  - rewrite fill_loop_S.
    destruct (io.Read (bufio.rd b) (bufio.size b - length (bufio.buf b)))
      as [[data e] s'] eqn:Hr.
    assert (Hn : 0 < bufio.size b - length (bufio.buf b)) by lia.
    pose proof (mem_Read_spec _ _ _ _ _ Hn Hr) as Hspec.
    destruct e as [e|].
    + cbn. unfold mem.remaining; cbn. rewrite length_app.
      destruct Hspec as [(-> & [= ->] & ->) | (Hle & Hlt & Hstrict)].
      * repeat split; try (cbn; lia); [left; discriminate|].
        intros e' [= <-]; discriminate.
      * specialize (Hstrict ltac:(discriminate)).
        repeat split; try lia; try (left; discriminate).
    + destruct Hspec as [(_ & [=] & _) | (Hle & Hlt & _)].
      destruct data as [|x data].
      * set (b1 := bufio.mkReader s' (bufio.buf b ++ []) (bufio.size b)
                                  (bufio.err b) (S (bufio.reads b))).
        assert (Hroom1 : length (bufio.buf b1) < bufio.size b1)
          by (cbn; rewrite app_nil_r; exact Hroom).
        destruct (IH b1 Hroom1 Herr) as (Hs & Hrem & Hw & Hprog & Hfull).
        unfold mem.remaining in *. cbn in Hs, Hrem, Hw, Hfull.
        rewrite app_nil_r in Hrem, Hfull. cbn in Hle.
        cbn in Hw.
        split; [exact Hs|]. split; [lia|]. split; [lia|]. split; [right; lia|].
        intros e He Hsame. specialize (Hfull e He Hsame). lia.
      * cbn. unfold mem.remaining; cbn. rewrite length_app.
        split; [reflexivity|]. split; [lia|]. split; [lia|].
        split; [right; lia|].
        intros e He; congruence.
Qed.

Lemma fill_progress (b : bufio.Reader mem.stream) :
  length (bufio.buf b) < bufio.size b ->
  bufio.err b = None ->
  bufio.size (bufio.fill b) = bufio.size b /\
  mem.remaining (bufio.fill b) <= mem.remaining b /\
  mem.weight (mem.pending (bufio.rd (bufio.fill b)))
  <= mem.weight (mem.pending (bufio.rd b)) /\
  (bufio.err (bufio.fill b) <> None \/
   mem.weight (mem.pending (bufio.rd (bufio.fill b)))
   < mem.weight (mem.pending (bufio.rd b))) /\
  (forall e, bufio.err (bufio.fill b) = Some e ->
             errors.same e bufio_ErrBufferFull = true ->
             mem.remaining (bufio.fill b) < mem.remaining b).
Proof. exact (fill_loop_progress bufio.maxConsecutiveEmptyReads b). Qed.

(** [ReadSlice] returns on every in-memory stream; what is left to read
    shrinks by the line it returns. *)
Lemma ReadSlice_terminates (fuel : nat) :
  forall (b : bufio.Reader mem.stream) (delim : byte),
    0 < bufio.size b ->
    match bufio.err b with
    | Some _ => 1
    | None => mem.weight (mem.pending (bufio.rd b)) + 2
    end <= fuel ->
    exists (line : list byte) (e : option error) (b' : bufio.Reader mem.stream),
      bufio.ReadSlice fuel b delim = Some (line, e, b') /\
      bufio.size b' = bufio.size b /\
      mem.remaining b' + length line <= mem.remaining b /\
      (e <> None -> bufio.buf b' = [] /\ bufio.err b' = None) /\
      (forall e', e = Some e' ->
                  errors.same e' bufio_ErrBufferFull = true ->
                  mem.remaining b' < mem.remaining b \/
                  exists e0, bufio.err b = Some e0).
Proof.
  induction fuel as [|fuel IH]; intros b delim Hsize Hfuel.
  { destruct (bufio.err b); lia. }
  cbn [bufio.ReadSlice].
  destruct (bytes.IndexByte (bufio.buf b) delim) as [i|] eqn:Hi.
  - eexists _, _, _. split; [reflexivity|]. cbn.
    split; [reflexivity|]. split.
    + unfold mem.remaining; cbn. rewrite length_firstn, length_skipn. lia.
    + split; [congruence | discriminate].
  - destruct (bufio.err b) as [e0|] eqn:He.
    + eexists _, _, _. split; [reflexivity|]. cbn.
      split; [reflexivity|]. split; [unfold mem.remaining; cbn; lia|].
      split; [split; reflexivity|].
      intros e' _ _. right. exists e0. reflexivity.
    + unfold bufio.Buffered.
      destruct (Nat.leb_spec (bufio.size b) (length (bufio.buf b))) as [Hf|Hr].
      * eexists _, _, _. split; [reflexivity|]. cbn.
        split; [reflexivity|]. split; [unfold mem.remaining; cbn; lia|].
        split; [split; reflexivity|].
        intros e' _ _. left. unfold mem.remaining; cbn. lia.
      * destruct (fill_progress b Hr He) as (Hs & Hrem & Hw & Hprog & Hfull).
        assert (Hfuel1 :
                  match bufio.err (bufio.fill b) with
                  | Some _ => 1
                  | None =>
                      mem.weight (mem.pending (bufio.rd (bufio.fill b))) + 2
                  end <= fuel).
        { destruct (bufio.err (bufio.fill b)); [lia|].
          destruct Hprog as [Hp|Hp]; [congruence | lia]. }
        destruct (IH (bufio.fill b) delim ltac:(lia) Hfuel1)
          as (line & e & b' & Hrs & Hs' & Hrem' & Hclr & Hbf).
        exists line, e, b'. split; [exact Hrs|].
        split; [lia|]. split; [lia|]. split; [exact Hclr|].
        intros e' He' Hsame. left.
        destruct (Hbf e' He' Hsame) as [Hlt | (e0 & He0)]; [lia|].
        (* the error was pending after [fill]: it is the one returned *)
        subst e.
        pose proof (ReadSlice_returns_pending _ _ _ _ _ _ _ He0 Hrs) as He0'.
        subst e0. specialize (Hfull e' He0 Hsame). lia.
Qed.

Lemma collectFragments_terminates (fuel : nat) :
  forall (b : bufio.Reader mem.stream) (delim : byte) (full : list byte),
    0 < bufio.size b ->
    mem.remaining b + 2 + match bufio.err b with Some _ => 1 | None => 0 end
    <= fuel ->
    exists (line : list byte) (e : option error) (b' : bufio.Reader mem.stream),
      bufio.collectFragments fuel b delim full = Some (line, e, b') /\
      bufio.size b' = bufio.size b /\
      (e <> None -> bufio.buf b' = []) /\
      (e = None -> mem.remaining b' < mem.remaining b).
Proof.
  induction fuel as [|fuel IH]; intros b delim full Hsize Hfuel; [lia|].
  cbn [bufio.collectFragments].
  assert (Hneed :
            match bufio.err b with
            | Some _ => 1
            | None => mem.weight (mem.pending (bufio.rd b)) + 2
            end <= S fuel).
  { unfold mem.remaining in Hfuel. destruct (bufio.err b); lia. }
  destruct (ReadSlice_terminates (S fuel) b delim Hsize Hneed)
    as (frag & e & b1 & Hrs & Hs1 & Hrem1 & Hclr & Hbf).
  rewrite Hrs.
  destruct e as [e|].
  - destruct (Hclr ltac:(discriminate)) as [Hbuf1 Herr1].
    destruct (errors.same e bufio_ErrBufferFull) eqn:Hsame.
    + assert (Hfuel1 :
                mem.remaining b1 + 2 +
                match bufio.err b1 with Some _ => 1 | None => 0 end <= fuel).
      { rewrite Herr1.
        destruct (Hbf e eq_refl Hsame) as [Hlt | (e0 & He0)]; [lia|].
        rewrite He0 in Hfuel. lia. }
      destruct (IH b1 delim (full ++ frag) ltac:(lia) Hfuel1)
        as (line & e' & b' & Hcf & Hs' & Hclr' & Hlt').
      exists line, e', b'. split; [exact Hcf|].
      split; [lia|]. split; [exact Hclr'|].
      intros He'. specialize (Hlt' He'). lia.
    + eexists _, _, _. split; [reflexivity|].
      split; [exact Hs1|]. split; [intros _; exact Hbuf1 | discriminate].
  - eexists _, _, _. split; [reflexivity|].
    split; [exact Hs1|]. split; [congruence|]. intros _.
    pose proof (ReadSlice_ok_nonempty _ _ _ _ _ Hrs) as Hne.
    destruct frag; [contradiction|]. cbn in Hrem1. lia.
Qed.

Lemma readOut_loop_terminates (fuel : nat) :
  forall (reader : bufio.Reader mem.stream) (res : list byte),
    0 < bufio.size reader ->
    mem.remaining reader + 3 <= fuel ->
    exists x, telnet.readOut_loop fuel reader res = Some x.
Proof.
  induction fuel as [|fuel IH]; intros reader res Hsize Hfuel; [lia|].
  cbn [telnet.readOut_loop]. unfold bufio.ReadBytes.
  assert (Hneed :
            mem.remaining reader + 2 +
            match bufio.err reader with Some _ => 1 | None => 0 end <= S fuel)
    by (destruct (bufio.err reader); lia).
  destruct (collectFragments_terminates (S fuel) reader telnet.newline []
                                        Hsize Hneed)
    as (line & e & b1 & Hcf & Hs1 & Hclr & Hlt).
  rewrite Hcf.
  destruct e as [e|].
  - unfold bufio.Buffered. rewrite (Hclr ltac:(discriminate)). cbn.
    destruct (errors.Is e io_EOF); [eexists; reflexivity|].
    destruct (errors.Is e net_ErrClosed); eexists; reflexivity.
  - destruct (bufio.Buffered b1 =? 0); [eexists; reflexivity|].
    specialize (Hlt eq_refl). apply IH; lia.
Qed.

(** On an in-memory stream [readOut] returns, whatever the stream holds,
    given fuel for what is pending. *)
Lemma readOut_terminates (fuel : nat) (s : mem.stream) :
  mem.weight (mem.pending s) + 3 <= fuel ->
  exists x, telnet.readOut fuel s = Some x.
Proof.
  intros Hfuel. unfold telnet.readOut.
  destruct (readOut_loop_terminates fuel (bufio.NewReader s) [])
    as ([[d e] r] & Hl).
  - exact defaultBufSize_pos.
  - unfold mem.remaining. cbn [bufio.NewReader bufio.NewReaderSize bufio.rd
                                bufio.buf length]. lia.
  - rewrite Hl. eexists; reflexivity.
Qed.

End Termination.

(** ** The client *)

Section ClientFacts.
Context {I O C : Type}.
Context `{io.Reader I} `{io.Closer I} `{io.Writer O}.
Context `{io.Reader C} `{io.Writer C} `{io.Closer C}.

(** [writeOut] never hands back a bare sentinel: its errors are built by
    [fmt.Errorf]. *)
Lemma writeOut_not_sentinel (W : Type) `{io.Writer W} (w w' : W)
      (data : list byte) (s : sentinel) :
  telnet.writeOut w data <> (Some (Sentinel s), w').
Proof.
  unfold telnet.writeOut.
  destruct (io.Write w data) as [[k [e|]] w1]; [|discriminate].
  destruct (errors.Is e net_ErrClosed); discriminate.
Qed.

(** C10: the line-buffered read never returns an empty slice with a nil
    error; so when [Send] returns the end-of-transmission sentinel itself,
    it is [readOut] on the input stream that returned it, and the check of
    the data's length (telnet.go:117) is never the one to answer. *)
Theorem C10_readOut_never_empty_success :
  (forall (fuel : nat) (r r' : I) (data : list byte) (n : nat),
      telnet.readOut fuel r = Some (data, None, r', n) -> data <> [])
  /\
  (forall (fuel : nat) (c c' : telnet.client I O C) (calls : list telnet.call),
      telnet.Send fuel c = telnet.Returns (Some (Sentinel ErrEOT), c', calls) ->
      exists (i i' : I) (n : nat),
        telnet.in_ c = Some i /\
        telnet.readOut fuel i = Some ([], Some (Sentinel ErrEOT), i', n)).
Proof.
  split.
  - intros fuel r r' data n. apply readOut_ok_nonempty.
  - intros fuel c c' calls. unfold telnet.Send.
    destruct (sync.RLock (telnet.mu c)) as [m|]; [|discriminate].
    cbn [telnet.conn telnet.in_ telnet.set_mu].
    destruct (telnet.conn c) as [cn|]; [|discriminate].
    destruct (telnet.in_ c) as [i|]; [|discriminate].
    destruct (telnet.readOut fuel i) as [[[[data [e|]] i'] n]|] eqn:Hro;
      [ | | discriminate].
    + intros Heq; injection Heq as -> _ _.
      exists i, i', n; split; [reflexivity|].
      rewrite (readOut_err_no_data _ _ _ _ _ _ Hro) in Hro. exact Hro.
    + pose proof (readOut_ok_nonempty _ _ _ _ _ Hro) as Hne.
      destruct data as [|x data]; [contradiction|].
      cbn [length Nat.eqb].
      destruct (telnet.writeOut cn (x :: data)) as [e cn'] eqn:Hw.
      intros Heq; injection Heq as -> _ _.
      exfalso; exact (writeOut_not_sentinel _ _ _ _ _ Hw).
Qed.
(** *** The lock around a check *)

Lemma RLock_free (m : sync.RWMutex) :
  sync.writer m = false ->
  sync.RLock m = Some (sync.mkRWMutex (S (sync.readers m)) false).
Proof. intros Hw. unfold sync.RLock. rewrite Hw. reflexivity. Qed.

Lemma RUnlock_RLock (c : telnet.client I O C) :
  sync.writer (telnet.mu c) = false ->
  telnet.set_mu
    (telnet.set_mu c (sync.mkRWMutex (S (sync.readers (telnet.mu c))) false))
    (sync.RUnlock (sync.mkRWMutex (S (sync.readers (telnet.mu c))) false)) = c.
Proof.
  destruct c as [[n w] a t i o cn]; simpl; intros ->; reflexivity.
Qed.

(** No method returns with the write lock held: between two calls made
    one after the other, [sync.writer] is [false], as it is in a new
    client. *)
Lemma writer_released (dial : string -> string -> Z -> C + error)
      (fuel : nat) (c c' : telnet.client I O C) (e : option error)
      (calls : list telnet.call) :
  sync.writer (telnet.mu c) = false ->
  telnet.Connect dial c = telnet.Returns (e, c', calls) \/
  telnet.Close c = telnet.Returns (e, c', calls) \/
  telnet.Send fuel c = telnet.Returns (e, c', calls) \/
  telnet.Receive fuel c = telnet.Returns (e, c', calls) ->
  sync.writer (telnet.mu c') = false.
Proof.
  intros Hw Hop.
  destruct c as [[n w] a t i o cn]. cbn in Hw. subst w.
  destruct Hop as [Hop | [Hop | [Hop | Hop]]]; revert Hop.
  - unfold telnet.Connect. cbn.
    destruct (dial "tcp"%string a t).
    + destruct n; cbn; [|discriminate].
      intros [= _ <- _]. reflexivity.
    + intros [= _ <- _]. reflexivity.
  - unfold telnet.Close, sync.Lock. cbn.
    destruct n; [|discriminate]. cbn.
    destruct cn as [cn|], i as [i|].
    + destruct (io.Close i), (io.Close cn). intros [= _ <- _]. reflexivity.
    + destruct (io.Close cn). intros [= _ <- _]. reflexivity.
    + destruct (io.Close i). intros [= _ <- _]. reflexivity.
    + intros [= _ <- _]. reflexivity.
  - unfold telnet.Send. cbn.
    destruct cn as [cn|], i as [i|];
      try (intros [= _ <- _]; reflexivity).
    destruct (telnet.readOut fuel i) as [[[[data [err|]] i'] k]|];
      [ | | discriminate].
    + intros [= _ <- _]. reflexivity.
    + destruct (length data =? 0).
      * intros [= _ <- _]. reflexivity.
      * destruct (telnet.writeOut cn data). intros [= _ <- _]. reflexivity.
  - unfold telnet.Receive. cbn.
    destruct cn as [cn|], o as [o|];
      try (intros [= _ <- _]; reflexivity).
    destruct (telnet.readOut fuel cn) as [[[[data [err|]] cn'] k]|];
      [ | | discriminate].
    + intros [= _ <- _]. reflexivity.
    + destruct (telnet.writeOut o data). intros [= _ <- _]. reflexivity.
Qed.


(** C4: [Send] without connection or without input, and [Receive] without
    connection or without output, return at once the configuration error
    that says which of the two is absent; they make no call on any stream
    and leave the streams as they were (the read lock stays held). *)
Theorem C4_absent_component_is_config_error :
  forall (fuel : nat) (c : telnet.client I O C),
    sync.writer (telnet.mu c) = false ->
    (telnet.conn c = None \/ telnet.in_ c = None ->
     telnet.Send fuel c =
     telnet.Returns
       (Some (nil_input (telnet.isNil (telnet.conn c))
                        (telnet.isNil (telnet.in_ c))),
        telnet.set_mu c (sync.mkRWMutex (S (sync.readers (telnet.mu c))) false),
        []))
    /\
    (telnet.conn c = None \/ telnet.out c = None ->
     telnet.Receive fuel c =
     telnet.Returns
       (Some (nil_output (telnet.isNil (telnet.conn c))
                         (telnet.isNil (telnet.out c))),
        telnet.set_mu c (sync.mkRWMutex (S (sync.readers (telnet.mu c))) false),
        [])).
Proof.
  intros fuel c Hw. split; intros Habs.
  - unfold telnet.Send. rewrite (RLock_free _ Hw).
    cbn [telnet.conn telnet.in_ telnet.set_mu].
    destruct (telnet.conn c) as [cn|], (telnet.in_ c) as [i|];
      try reflexivity.
    destruct Habs; discriminate.
  - unfold telnet.Receive. rewrite (RLock_free _ Hw).
    cbn [telnet.conn telnet.out telnet.set_mu].
    destruct (telnet.conn c) as [cn|], (telnet.out c) as [o|];
      try reflexivity.
    destruct Habs; discriminate.
Qed.


(** X14: with the lock free, [Close] closes the input stream and the
    connection when both are present, and the one that is present
    otherwise; the error of closing the connection comes before the error
    of closing the input; with neither present it returns [nil] at once and
    changes nothing; it never makes a call on the output stream, which it
    leaves as it was. *)
Theorem X14_close_with_free_lock :
  forall c : telnet.client I O C,
    telnet.mu c = sync.zero ->
    (forall (cn : C) (i : I),
        telnet.conn c = Some cn -> telnet.in_ c = Some i ->
        telnet.Close c =
        telnet.Returns
          (match fst (io.Close cn) with
           | Some e => Some e
           | None => fst (io.Close i)
           end,
           telnet.set_conn (telnet.set_in c (Some (snd (io.Close i)))) None,
           [telnet.Cl telnet.Input; telnet.Cl telnet.Connection]))
    /\ (forall cn : C,
           telnet.conn c = Some cn -> telnet.in_ c = None ->
           telnet.Close c =
           telnet.Returns (fst (io.Close cn), telnet.set_conn c None,
                           [telnet.Cl telnet.Connection]))
    /\ (forall i : I,
           telnet.conn c = None -> telnet.in_ c = Some i ->
           telnet.Close c =
           telnet.Returns (fst (io.Close i),
                           telnet.set_in c (Some (snd (io.Close i))),
                           [telnet.Cl telnet.Input]))
    /\ (telnet.conn c = None -> telnet.in_ c = None ->
        telnet.Close c = telnet.Returns (None, c, []))
    /\ (forall (e : option error) (c' : telnet.client I O C)
               (calls : list telnet.call),
           telnet.Close c = telnet.Returns (e, c', calls) ->
           telnet.out c' = telnet.out c /\
           ~ In (telnet.Cl telnet.Output) calls /\
           (forall data, ~ In (telnet.Wr telnet.Output data) calls)).
Proof.
  intros c Hmu. unfold telnet.Close. rewrite Hmu.
  destruct c as [m a t i0 o cn0]. cbn in Hmu |- *. subst m.
  repeat apply conj.
  - intros cn i -> ->.
    destruct (io.Close i) as [inErr i'], (io.Close cn) as [[err|] cn'];
      reflexivity.
  - intros cn -> ->. destruct (io.Close cn) as [err cn']. reflexivity.
  - intros i -> ->. destruct (io.Close i) as [err i']. reflexivity.
  - intros -> ->. reflexivity.
  - intros e c' calls.
    destruct cn0 as [cn|], i0 as [i|].
    + destruct (io.Close i) as [inErr i'], (io.Close cn) as [err cn'].
      intros Heq; injection Heq as _ <- <-.
      repeat split; cbn; intuition discriminate.
    + destruct (io.Close cn) as [err cn'].
      intros Heq; injection Heq as _ <- <-.
      repeat split; cbn; intuition discriminate.
    + destruct (io.Close i) as [err i'].
      intros Heq; injection Heq as _ <- <-.
      repeat split; cbn; intuition discriminate.
    + intros Heq; injection Heq as _ <- <-.
      repeat split; cbn; intuition discriminate.
Qed.

(** When the first [Read] of the input stream, into the 4096 bytes of the
    buffered reader, brings a chunk that ends in a newline, [Send] makes
    exactly one [Write] on the connection, with exactly that chunk, and
    returns what [writeOut] made of it; and likewise [Receive], from the
    connection to the output stream. *)
Lemma first_chunk_is_relayed_whole :
  forall (fuel : nat) (c : telnet.client I O C) (cn : C) (l : list byte),
    length l + 1 < fuel ->
    sync.writer (telnet.mu c) = false ->
    telnet.conn c = Some cn ->
    (forall (i i' : I) (e : option error),
        telnet.in_ c = Some i ->
        io.Read i bufio.defaultBufSize = (l ++ [telnet.newline], e, i') ->
        telnet.Send fuel c =
        telnet.Returns
          (fst (telnet.writeOut cn (l ++ [telnet.newline])),
           telnet.set_conn
             (telnet.set_in c (Some i'))
             (Some (snd (telnet.writeOut cn (l ++ [telnet.newline])))),
           [telnet.Rd telnet.Input;
            telnet.Wr telnet.Connection (l ++ [telnet.newline])]))
    /\
    (forall (o : O) (cn' : C) (e : option error),
        telnet.out c = Some o ->
        io.Read cn bufio.defaultBufSize = (l ++ [telnet.newline], e, cn') ->
        telnet.Receive fuel c =
        telnet.Returns
          (fst (telnet.writeOut o (l ++ [telnet.newline])),
           telnet.set_out
             (telnet.set_conn c (Some cn'))
             (Some (snd (telnet.writeOut o (l ++ [telnet.newline])))),
           [telnet.Rd telnet.Connection;
            telnet.Wr telnet.Output (l ++ [telnet.newline])])).
Proof.
  intros fuel c cn l Hfuel Hw Hconn. split.
  - intros i i' e Hin Hr. unfold telnet.Send. rewrite (RLock_free _ Hw).
    cbn [telnet.conn telnet.in_ telnet.set_mu]. rewrite Hconn, Hin.
    rewrite (readOut_lines fuel i i' l e Hfuel Hr).
    rewrite (RUnlock_RLock c Hw).
    replace (length (l ++ [telnet.newline]) =? 0) with false
      by (symmetry; apply Nat.eqb_neq; rewrite length_app; simpl; lia).
    destruct (telnet.writeOut cn (l ++ [telnet.newline])) as [err cn1].
    reflexivity.
  - intros o cn' e Hout Hr. unfold telnet.Receive. rewrite (RLock_free _ Hw).
    cbn [telnet.conn telnet.out telnet.set_mu]. rewrite Hconn, Hout.
    rewrite (readOut_lines fuel cn cn' l e Hfuel Hr).
    rewrite (RUnlock_RLock c Hw).
    destruct (telnet.writeOut o (l ++ [telnet.newline])) as [err o1].
    reflexivity.
Qed.

End ClientFacts.

(** ** The client on in-memory streams *)

(** Every timeout below zero fails the dial, whoever listens. *)
Lemma Connect_negative_timeout_fails (h : net.hosts)
      (c : telnet.client mem.stream mem.stream mem.stream) :
  (telnet.timeout c < 0)%Z ->
  sync.writer (telnet.mu c) = false ->
  telnet.Connect (net.DialTimeout h) c =
  telnet.Returns
    (Some (Errorf "connection failed: %w" [] [OpError "dial tcp: i/o timeout"]),
     c, [telnet.Dial "tcp" (telnet.address c) (telnet.timeout c)]).
Proof.
  intros Ht Hw. unfold telnet.Connect, net.DialTimeout, sync.RLock.
  destruct c as [[n w] a t i o cn]; cbn in *. subst w.
  destruct (Z.ltb_spec t 0); [reflexivity | lia].
Qed.

(** With fuel for what their source holds, [Send] and [Receive] never
    stop for lack of fuel. *)
Lemma Send_Receive_enough_fuel (fuel : nat)
      (c : telnet.client mem.stream mem.stream mem.stream) :
  (forall i, telnet.in_ c = Some i ->
             mem.weight (mem.pending i) + 3 <= fuel ->
             telnet.Send fuel c <> telnet.OutOfFuel) /\
  (forall cn, telnet.conn c = Some cn ->
              mem.weight (mem.pending cn) + 3 <= fuel ->
              telnet.Receive fuel c <> telnet.OutOfFuel).
Proof.
  split.
  - intros i Hin Hfuel. unfold telnet.Send.
    destruct (sync.RLock (telnet.mu c)); [|discriminate].
    cbn [telnet.conn telnet.in_ telnet.set_mu]. rewrite Hin.
    destruct (telnet.conn c) as [cn|]; [|discriminate].
    destruct (readOut_terminates fuel i Hfuel) as ([[[data e] i'] n] & ->).
    destruct e; [discriminate|].
    destruct (length data =? 0); [discriminate|].
    destruct (telnet.writeOut cn data); discriminate.
  - intros cn Hconn Hfuel. unfold telnet.Receive.
    destruct (sync.RLock (telnet.mu c)); [|discriminate].
    cbn [telnet.conn telnet.out telnet.set_mu]. rewrite Hconn.
    destruct (telnet.out c) as [o|]; [|discriminate].
    destruct (readOut_terminates fuel cn Hfuel) as ([[[data e] cn'] n] & ->).
    destruct e; [discriminate|].
    destruct (telnet.writeOut o data); discriminate.
Qed.

(** C1: a client with a connection and an input stream is closed twice.
    The first [Close] closes both and clears the connection handle; the
    input handle stays, and the second [Close] closes the input stream a
    second time.  With an [*os.File] as input the second [Close] returns
    the error of that second close. *)
Theorem C1_second_close_closes_input_again :
  (exists c1 c2,
      telnet.Close (connected (Some (mem.file [])) None (mem.buffer [])) =
      telnet.Returns (None, c1, [telnet.Cl telnet.Input;
                                 telnet.Cl telnet.Connection]) /\
      telnet.Close c1 =
      telnet.Returns (Some (OpError "file already closed"), c2,
                      [telnet.Cl telnet.Input]) /\
      option_map mem.closes (telnet.in_ c2) = Some 2)
  /\
  (exists c1 c2,
      telnet.Close (connected (Some (mem.buffer [])) None (mem.buffer [])) =
      telnet.Returns (None, c1, [telnet.Cl telnet.Input;
                                 telnet.Cl telnet.Connection]) /\
      telnet.Close c1 = telnet.Returns (None, c2, [telnet.Cl telnet.Input]) /\
      option_map mem.closes (telnet.in_ c2) = Some 2).
Proof.
  split; eexists; eexists; (split; [|split]); vm_compute; reflexivity.
Qed.

(** C2: on an input that ends in bytes without a newline, then end of
    stream, [readOut] takes the bytes from the stream, holds them in its
    accumulator, and returns the end-of-transmission sentinel with no
    data: the bytes are lost.  A whole line read before them is lost with
    them. *)
Theorem C2_unterminated_tail_is_dropped :
  forall fuel : nat,
    telnet.readOut (3 + fuel) (mem.buffer (b "abc")) =
    Some ([], Some (Sentinel ErrEOT), mem.buffer [], 2)
    /\
    telnet.readOut (3 + fuel) (mem.buffer (hello ++ b "wor")) =
    Some ([], Some (Sentinel ErrEOT), mem.buffer [], 2).
Proof. intros fuel. split; vm_compute; reflexivity. Qed.

(** C8: a client with the timeout zero connects to a listening peer:
    [Connect] does not look at the timeout, and for the dial a zero
    timeout is no timeout. *)
Theorem C8_zero_timeout_connects :
  forall peer : mem.stream,
    telnet.Connect (net.DialTimeout (listener peer)) (unconnected 0) =
    telnet.Returns
      (None, telnet.set_conn (unconnected 0) (Some peer),
       [telnet.Dial "tcp" loopback 0]).
Proof. intros peer. reflexivity. Qed.

(** C9: [Send] on a client without connection returns its configuration
    error with the read lock still held, and so does [Receive]; the [Close]
    that follows waits for the lock for ever. *)
Theorem C9_config_error_leaves_lock_held :
  forall fuel : nat,
    let c0 : telnet.client mem.stream mem.stream mem.stream :=
      telnet.NewClient "localhost:0" millisecond None None in
    exists c1 c2,
      telnet.Send fuel c0 = telnet.Returns (Some (nil_input true true), c1, []) /\
      sync.readers (telnet.mu c1) = 1 /\
      telnet.Close c1 = telnet.Blocks /\
      telnet.Receive fuel c0 =
      telnet.Returns (Some (nil_output true true), c2, []) /\
      sync.readers (telnet.mu c2) = 1 /\
      telnet.Close c2 = telnet.Blocks.
Proof.
  intros fuel c0. eexists; eexists. repeat split.
Qed.

(** C6: a client without input stream connects, and [Send] returns its
    configuration error with the read lock still held (telnet.go:108); the
    first [Close] then waits for the lock for ever, and the connection,
    which is present, is never closed.  Likewise a client with an input
    stream and no connection, after [Receive] (telnet.go:133): the first
    [Close] never closes the input stream. *)
Theorem C6_first_close_blocks_after_config_error :
  forall (fuel : nat) (peer input : mem.stream),
    (exists c1 c2,
        telnet.Connect (net.DialTimeout (listener peer))
                       (unconnected (10 * second)) =
        telnet.Returns (None, c1, [telnet.Dial "tcp" loopback (10 * second)]) /\
        telnet.Send fuel c1 =
        telnet.Returns (Some (nil_input false true), c2, []) /\
        telnet.conn c2 = Some peer /\
        telnet.Close c2 = telnet.Blocks)
    /\
    (exists c2,
        telnet.Receive fuel
                       (telnet.NewClient (O := mem.stream) (C := mem.stream)
                                         loopback (10 * second)
                                         (Some input) None) =
        telnet.Returns (Some (nil_output true true), c2, []) /\
        telnet.in_ c2 = Some input /\
        telnet.Close c2 = telnet.Blocks).
Proof.
  intros fuel peer input. split.
  - eexists; eexists. repeat split.
  - eexists. repeat split.
Qed.

(** C7, as stated, fails on 4098 ready bytes that are all terminated: the
    first [Send] writes the 4096 bytes of the first line and no more. *)
Lemma C7_counterexample :
  exists c',
    telnet.Send 10 (connected (Some (mem.buffer two_lines)) None (mem.buffer []))
    = telnet.Returns
        (None, c', [telnet.Rd telnet.Input;
                    telnet.Wr telnet.Connection (firstn 4096 two_lines)]) /\
    option_map mem.sent (telnet.conn c') = Some (firstn 4096 two_lines) /\
    option_map mem.sent (telnet.conn c') <> Some two_lines /\
    option_map mem.pending (telnet.in_ c') = Some [(b "b" ++ LF, None)].
Proof.
  eexists. split; [vm_compute; reflexivity|].
  split; [vm_compute; reflexivity|].
  split; [|vm_compute; reflexivity].
  intros Heq. apply (f_equal (option_map (@length byte))) in Heq.
  vm_compute in Heq. discriminate.
Qed.

(** *** The statements above, at the clients of the tests *)


Lemma C4_witness :
  telnet.Send 1 (unconnected millisecond) =
  telnet.Returns
    (Some (nil_input true true),
     telnet.set_mu (unconnected millisecond) (sync.mkRWMutex 1 false), [])
  /\
  telnet.Receive 1 (connected None None (mem.buffer world)) =
  telnet.Returns
    (Some (nil_output false true),
     telnet.set_mu (connected None None (mem.buffer world))
                   (sync.mkRWMutex 1 false), []).
Proof.
  split.
  - exact (proj1 (C4_absent_component_is_config_error
                    1 (unconnected millisecond) eq_refl)
                 (or_introl eq_refl)).
  - exact (proj2 (C4_absent_component_is_config_error
                    1 (connected None None (mem.buffer world)) eq_refl)
                 (or_intror eq_refl)).
Defined.


Lemma X14_witness :
  telnet.Close (connected (Some (broken "input")) (Some (mem.buffer []))
                          (broken "connection")) =
  telnet.Returns
    (Some (OpError "connection"),
     telnet.set_conn
       (telnet.set_in
          (connected (Some (broken "input")) (Some (mem.buffer []))
                     (broken "connection"))
          (Some (snd (mem.Close (broken "input")))))
       None,
     [telnet.Cl telnet.Input; telnet.Cl telnet.Connection]).
Proof.
  exact (proj1 (X14_close_with_free_lock
                  (connected (Some (broken "input")) (Some (mem.buffer []))
                             (broken "connection"))
                  eq_refl)
               (broken "connection") (broken "input") eq_refl eq_refl).
Defined.

Lemma C10_witness : hello <> [].
Proof.
  exact (proj1 (C10_readOut_never_empty_success
                  (I := mem.stream) (O := mem.stream) (C := mem.stream))
               5 (mem.buffer hello) (mem.buffer []) hello 1 eq_refl).
Defined.

(** * Further properties of the line-buffered read *)

Section ReaderMore.
Context {R : Type} `{io.Reader R}.

(** A first [Read] that fails, with or without bytes that hold no newline:
    [readOut] drops the bytes and wraps the error, as a closed connection
    when it is [net.ErrClosed], as a failed read otherwise. *)
Lemma readOut_read_error (fuel : nat) (r r' : R) (data : list byte)
      (e : error) :
  2 <= fuel ->
  io.Read r bufio.defaultBufSize = (data, Some e, r') ->
  bytes.IndexByte data telnet.newline = None ->
  errors.Is e io_EOF = false ->
  errors.same e bufio_ErrBufferFull = false ->
  telnet.readOut fuel r =
  Some ([], Some (if errors.Is e net_ErrClosed
                  then conn_closed e else reading_failed e), r', 1).
Proof.
  intros Hfuel Hr Hnl Heof Hfull.
  destruct fuel as [|[|fuel]]; [lia | lia | clear Hfuel].
  unfold telnet.readOut. cbn [telnet.readOut_loop].
  unfold bufio.ReadBytes. cbn [bufio.collectFragments].
  rewrite ReadSlice_fill;
    [ | reflexivity | reflexivity | exact defaultBufSize_pos ].
  rewrite (NewReader_fill _ _ _ _ Hr) by (left; discriminate).
  rewrite (ReadSlice_pending fuel _ telnet.newline e) by assumption || reflexivity.
  rewrite Hfull.
  cbn [app bufio.buf bufio.rd bufio.reads bufio.size].
  rewrite Heof. destruct (errors.Is e net_ErrClosed); reflexivity.
Qed.

(** On a source whose [Read] brings nothing, [fill] gives up after its
    [i] tries. *)
Lemma fill_loop_idle (i : nat) :
  forall b : bufio.Reader R,
    (forall n, io.Read (bufio.rd b) n = ([], None, bufio.rd b)) ->
    bufio.fill_loop i b =
    bufio.mkReader (bufio.rd b) (bufio.buf b) (bufio.size b)
                   (Some (Sentinel io_ErrNoProgress)) (i + bufio.reads b).
Proof.
  induction i as [|i IH]; intros b Hidle; [reflexivity|].
  rewrite fill_loop_S, Hidle. cbv beta iota zeta.
  rewrite IH by exact Hidle.
  cbn [bufio.rd bufio.buf bufio.size bufio.reads].
  rewrite app_nil_r. f_equal. lia.
Qed.

(** A source that brings nothing ends [readOut] with a reading failure
    after the hundred tries of one [fill]. *)
Lemma readOut_idle (fuel : nat) (r : R) :
  2 <= fuel ->
  (forall n, io.Read r n = ([], None, r)) ->
  telnet.readOut fuel r =
  Some ([], Some (reading_failed (Sentinel io_ErrNoProgress)), r,
        bufio.maxConsecutiveEmptyReads).
Proof.
  intros Hfuel Hidle.
  destruct fuel as [|[|fuel]]; [lia | lia | clear Hfuel].
  unfold telnet.readOut. cbn [telnet.readOut_loop].
  unfold bufio.ReadBytes. cbn [bufio.collectFragments].
  rewrite ReadSlice_fill;
    [ | reflexivity | reflexivity | exact defaultBufSize_pos ].
  unfold bufio.fill. rewrite fill_loop_idle by exact Hidle.
  rewrite (ReadSlice_pending fuel _ telnet.newline
                             (Sentinel io_ErrNoProgress))
    by reflexivity.
  cbn [errors.same errors.sentinel_eqb errors.Is app
       bufio.buf bufio.rd bufio.reads bufio.size
       bufio.NewReader bufio.NewReaderSize].
  rewrite Nat.add_0_r. reflexivity.
Qed.

End ReaderMore.

(** * Further properties of the client *)

Section ClientMore.
Context {I O C : Type}.
Context `{io.Reader I} `{io.Closer I} `{io.Writer O}.
Context `{io.Reader C} `{io.Writer C} `{io.Closer C}.

(** *** [Send] and [Receive] past their check *)

Lemma Send_present (fuel : nat) (c : telnet.client I O C) (cn : C) (i : I) :
  sync.writer (telnet.mu c) = false ->
  telnet.conn c = Some cn ->
  telnet.in_ c = Some i ->
  telnet.Send fuel c =
  match telnet.readOut fuel i with
  | None => telnet.OutOfFuel
  | Some (data, err, i', n) =>
      match err with
      | Some e =>
          telnet.Returns (Some e, telnet.set_in c (Some i'),
                          repeat (telnet.Rd telnet.Input) n)
      | None =>
          if length data =? 0
          then telnet.Returns (Some (Sentinel ErrEOT),
                               telnet.set_in c (Some i'),
                               repeat (telnet.Rd telnet.Input) n)
          else
            telnet.Returns
              (fst (telnet.writeOut cn data),
               telnet.set_conn (telnet.set_in c (Some i'))
                               (Some (snd (telnet.writeOut cn data))),
               repeat (telnet.Rd telnet.Input) n
                      ++ [telnet.Wr telnet.Connection data])
      end
  end.
Proof.
  intros Hw Hconn Hin. unfold telnet.Send. rewrite (RLock_free _ Hw).
  cbn [telnet.conn telnet.in_ telnet.set_mu]. rewrite Hconn, Hin.
  rewrite (RUnlock_RLock c Hw).
  destruct (telnet.readOut fuel i) as [[[[data [e|]] i'] n]|]; try reflexivity.
  destruct (length data =? 0); [reflexivity|].
  destruct (telnet.writeOut cn data); reflexivity.
Qed.

Lemma Receive_present (fuel : nat) (c : telnet.client I O C) (cn : C) (o : O) :
  sync.writer (telnet.mu c) = false ->
  telnet.conn c = Some cn ->
  telnet.out c = Some o ->
  telnet.Receive fuel c =
  match telnet.readOut fuel cn with
  | None => telnet.OutOfFuel
  | Some (data, err, cn', n) =>
      match err with
      | Some e =>
          telnet.Returns (Some e, telnet.set_conn c (Some cn'),
                          repeat (telnet.Rd telnet.Connection) n)
      | None =>
          telnet.Returns
            (fst (telnet.writeOut o data),
             telnet.set_out (telnet.set_conn c (Some cn'))
                            (Some (snd (telnet.writeOut o data))),
             repeat (telnet.Rd telnet.Connection) n
                    ++ [telnet.Wr telnet.Output data])
      end
  end.
Proof.
  intros Hw Hconn Hout. unfold telnet.Receive. rewrite (RLock_free _ Hw).
  cbn [telnet.conn telnet.out telnet.set_mu]. rewrite Hconn, Hout.
  rewrite (RUnlock_RLock c Hw).
  destruct (telnet.readOut fuel cn) as [[[[data [e|]] cn'] n]|];
    try reflexivity.
  destruct (telnet.writeOut o data); reflexivity.
Qed.

(** [Send] or [Receive] that returns has found the write lock free. *)
Lemma RLock_some (m m' : sync.RWMutex) :
  sync.RLock m = Some m' -> sync.writer m = false.
Proof. unfold sync.RLock. destruct (sync.writer m); [discriminate | reflexivity]. Qed.

(** X1: with connection and output present, a connection whose first
    [Read] brings no byte and a clean end of stream (the peer closed it)
    makes [Receive] return the end-of-transmission sentinel after that one
    [Read]; nothing is written to the output stream. *)
Theorem X1_receive_end_of_stream :
  forall (fuel : nat) (c : telnet.client I O C) (cn cn' : C) (o : O)
         (e : error),
    2 <= fuel ->
    sync.writer (telnet.mu c) = false ->
    telnet.conn c = Some cn ->
    telnet.out c = Some o ->
    io.Read cn bufio.defaultBufSize = ([], Some e, cn') ->
    errors.Is e io_EOF = true ->
    telnet.Receive fuel c =
    telnet.Returns (Some (Sentinel ErrEOT), telnet.set_conn c (Some cn'),
                    [telnet.Rd telnet.Connection]).
Proof.
  intros fuel c cn cn' o e Hfuel Hw Hconn Hout Hr He.
  rewrite (Receive_present fuel c cn o Hw Hconn Hout).
  rewrite (readOut_eof fuel cn cn' e Hfuel Hr He). reflexivity.
Qed.

(** X2: when the first [Read] on the connection fails (with no byte, or
    with bytes that hold no newline), [Receive] returns after that one
    [Read] without writing: the error wraps [ErrConnClosed] and the cause
    when the cause is [net.ErrClosed], and is a reading failure otherwise;
    main.go sorts the first as a closed connection, the second as
    unexpected. *)
Theorem X2_read_error_is_classified :
  forall (fuel : nat) (c : telnet.client I O C) (cn cn' : C) (o : O)
         (data : list byte) (e : error),
    2 <= fuel ->
    sync.writer (telnet.mu c) = false ->
    telnet.conn c = Some cn ->
    telnet.out c = Some o ->
    io.Read cn bufio.defaultBufSize = (data, Some e, cn') ->
    bytes.IndexByte data telnet.newline = None ->
    errors.Is e io_EOF = false ->
    errors.same e bufio_ErrBufferFull = false ->
    errors.Is e ErrEOT = false ->
    telnet.Receive fuel c =
    telnet.Returns
      (Some (if errors.Is e net_ErrClosed
             then conn_closed e else reading_failed e),
       telnet.set_conn c (Some cn'), [telnet.Rd telnet.Connection])
    /\ main.classify (conn_closed e) = main.ConnectionClosed
    /\ (errors.Is e ErrConnClosed = false ->
        main.classify (reading_failed e) = main.Unexpected).
Proof.
  intros fuel c cn cn' o data e Hfuel Hw Hconn Hout Hr Hnl Heof Hfull Heot.
  split; [|split].
  - rewrite (Receive_present fuel c cn o Hw Hconn Hout).
    rewrite (readOut_read_error fuel cn cn' data e Hfuel Hr Hnl Heof Hfull).
    reflexivity.
  - unfold main.classify, conn_closed.
    cbn [errors.Is errors.sentinel_eqb orb]. rewrite Heot. reflexivity.
  - intros Hcc. unfold main.classify, reading_failed.
    cbn [errors.Is errors.sentinel_eqb orb]. rewrite Heot, Hcc. reflexivity.
Qed.

(** X3: when the input brings a chunk that ends in a newline and the
    [Write] of that chunk on the connection fails, [Send] returns the
    error wrapped (with [ErrConnClosed] when the cause is
    [net.ErrClosed], as a failed write otherwise); the chunk is taken from
    the input all the same, and the write is tried once. *)
Theorem X3_write_error_is_classified :
  forall (fuel : nat) (c : telnet.client I O C) (cn cn1 : C) (i i' : I)
         (l : list byte) (e : option error) (k : nat) (werr : error),
    length l + 1 < fuel ->
    sync.writer (telnet.mu c) = false ->
    telnet.conn c = Some cn ->
    telnet.in_ c = Some i ->
    io.Read i bufio.defaultBufSize = (l ++ [telnet.newline], e, i') ->
    io.Write cn (l ++ [telnet.newline]) = (k, Some werr, cn1) ->
    errors.Is werr ErrEOT = false ->
    telnet.Send fuel c =
    telnet.Returns
      (Some (if errors.Is werr net_ErrClosed
             then conn_closed werr else write_failed werr),
       telnet.set_conn (telnet.set_in c (Some i')) (Some cn1),
       [telnet.Rd telnet.Input;
        telnet.Wr telnet.Connection (l ++ [telnet.newline])])
    /\ main.classify (conn_closed werr) = main.ConnectionClosed
    /\ (errors.Is werr ErrConnClosed = false ->
        main.classify (write_failed werr) = main.Unexpected).
Proof.
  intros fuel c cn cn1 i i' l e k werr Hfuel Hw Hconn Hin Hr Hwr Heot.
  split; [|split].
  - rewrite (Send_present fuel c cn i Hw Hconn Hin).
    rewrite (readOut_lines fuel i i' l e Hfuel Hr).
    replace (length (l ++ [telnet.newline]) =? 0) with false
      by (symmetry; apply Nat.eqb_neq; rewrite length_app; simpl; lia).
    unfold telnet.writeOut. rewrite Hwr.
    destruct (errors.Is werr net_ErrClosed); reflexivity.
  - unfold main.classify, conn_closed.
    cbn [errors.Is errors.sentinel_eqb orb]. rewrite Heot. reflexivity.
  - intros Hcc. unfold main.classify, write_failed.
    cbn [errors.Is errors.sentinel_eqb orb]. rewrite Heot, Hcc. reflexivity.
Qed.

(** X4: whatever [Send] returns, it has left the output stream, the
    address and the timeout as they were, has made no dial and no close,
    and its calls are reads of the input followed by at most one write, on
    the connection, of a slice that is not empty; and likewise [Receive],
    which leaves the input stream alone, reads the connection and writes
    at most once, to the output stream. *)
Theorem X4_reads_then_one_write :
  (forall (fuel : nat) (c c' : telnet.client I O C) (e : option error)
          (calls : list telnet.call),
      telnet.Send fuel c = telnet.Returns (e, c', calls) ->
      telnet.out c' = telnet.out c /\
      telnet.address c' = telnet.address c /\
      telnet.timeout c' = telnet.timeout c /\
      exists n : nat,
        calls = repeat (telnet.Rd telnet.Input) n \/
        exists data : list byte,
          data <> [] /\
          calls = repeat (telnet.Rd telnet.Input) n
                         ++ [telnet.Wr telnet.Connection data])
  /\
  (forall (fuel : nat) (c c' : telnet.client I O C) (e : option error)
          (calls : list telnet.call),
      telnet.Receive fuel c = telnet.Returns (e, c', calls) ->
      telnet.in_ c' = telnet.in_ c /\
      telnet.address c' = telnet.address c /\
      telnet.timeout c' = telnet.timeout c /\
      exists n : nat,
        calls = repeat (telnet.Rd telnet.Connection) n \/
        exists data : list byte,
          data <> [] /\
          calls = repeat (telnet.Rd telnet.Connection) n
                         ++ [telnet.Wr telnet.Output data]).
Proof.
  split; intros fuel c c' e calls.
  - destruct (sync.writer (telnet.mu c)) eqn:Hw;
      [unfold telnet.Send, sync.RLock; rewrite Hw; discriminate|].
    destruct (telnet.conn c) as [cn|] eqn:Hc;
      [destruct (telnet.in_ c) as [i|] eqn:Hi|].
    + rewrite (Send_present fuel c cn i Hw Hc Hi).
      destruct (telnet.readOut fuel i) as [[[[data [err|]] i'] n]|] eqn:Hro;
        [ | | discriminate].
      * intros [= _ <- <-]. repeat split. exists n. left. reflexivity.
      * pose proof (readOut_ok_nonempty _ _ _ _ _ Hro) as Hne.
        destruct data as [|x data]; [contradiction|]. cbn [length Nat.eqb].
        intros [= _ <- <-]. repeat split. exists n. right.
        exists (x :: data). split; [discriminate | reflexivity].
    + unfold telnet.Send. rewrite (RLock_free _ Hw).
      cbn [telnet.conn telnet.in_ telnet.set_mu]. rewrite Hc, Hi.
      intros [= _ <- <-]. repeat split. exists 0. left. reflexivity.
    + unfold telnet.Send. rewrite (RLock_free _ Hw).
      cbn [telnet.conn telnet.in_ telnet.set_mu]. rewrite Hc.
      intros [= _ <- <-]. repeat split. exists 0. left. reflexivity.
  - destruct (sync.writer (telnet.mu c)) eqn:Hw;
      [unfold telnet.Receive, sync.RLock; rewrite Hw; discriminate|].
    destruct (telnet.conn c) as [cn|] eqn:Hc;
      [destruct (telnet.out c) as [o|] eqn:Ho|].
    + rewrite (Receive_present fuel c cn o Hw Hc Ho).
      destruct (telnet.readOut fuel cn) as [[[[data [err|]] cn'] n]|] eqn:Hro;
        [ | | discriminate].
      * intros [= _ <- <-]. repeat split. exists n. left. reflexivity.
      * pose proof (readOut_ok_nonempty _ _ _ _ _ Hro) as Hne.
        intros [= _ <- <-]. repeat split. exists n. right.
        exists data. split; [exact Hne | reflexivity].
    + unfold telnet.Receive. rewrite (RLock_free _ Hw).
      cbn [telnet.conn telnet.out telnet.set_mu]. rewrite Hc, Ho.
      intros [= _ <- <-]. repeat split. exists 0. left. reflexivity.
    + unfold telnet.Receive. rewrite (RLock_free _ Hw).
      cbn [telnet.conn telnet.out telnet.set_mu]. rewrite Hc.
      intros [= _ <- <-]. repeat split. exists 0. left. reflexivity.
Qed.

(** X5: [Connect] and [Close] return with the lock as they found it, and
    so do [Send] and [Receive] whenever the connection and their stream
    are present. *)
Theorem X5_lock_is_given_back :
  forall (c c' : telnet.client I O C) (e : option error)
         (calls : list telnet.call),
    (forall dial : string -> string -> Z -> C + error,
        telnet.Connect dial c = telnet.Returns (e, c', calls) ->
        telnet.mu c' = telnet.mu c)
    /\ (telnet.Close c = telnet.Returns (e, c', calls) ->
        telnet.mu c' = telnet.mu c)
    /\ (forall fuel : nat,
           telnet.conn c <> None -> telnet.in_ c <> None ->
           telnet.Send fuel c = telnet.Returns (e, c', calls) ->
           telnet.mu c' = telnet.mu c)
    /\ (forall fuel : nat,
           telnet.conn c <> None -> telnet.out c <> None ->
           telnet.Receive fuel c = telnet.Returns (e, c', calls) ->
           telnet.mu c' = telnet.mu c).
Proof.
  intros c c' e calls. repeat apply conj.
  - intros dial. unfold telnet.Connect, sync.RLock, sync.Lock.
    destruct c as [[n w] a t i o cn]; cbn.
    destruct w; [discriminate|].
    destruct (dial "tcp"%string a t).
    + destruct n; [|discriminate]. intros [= _ <- _]. reflexivity.
    + intros [= _ <- _]. reflexivity.
  - unfold telnet.Close, sync.Lock.
    destruct c as [[n w] a t i o cn]; cbn.
    destruct w; [discriminate|]. destruct n; [|discriminate]. cbn.
    destruct cn as [cn|], i as [i|].
    + destruct (io.Close i), (io.Close cn). intros [= _ <- _]. reflexivity.
    + destruct (io.Close cn). intros [= _ <- _]. reflexivity.
    + destruct (io.Close i). intros [= _ <- _]. reflexivity.
    + intros [= _ <- _]. reflexivity.
  - intros fuel Hc Hi.
    destruct (sync.writer (telnet.mu c)) eqn:Hw;
      [unfold telnet.Send, sync.RLock; rewrite Hw; discriminate|].
    destruct (telnet.conn c) as [cn|] eqn:Hcn; [|contradiction].
    destruct (telnet.in_ c) as [i|] eqn:Hin; [|contradiction].
    rewrite (Send_present fuel c cn i Hw Hcn Hin).
    destruct (telnet.readOut fuel i) as [[[[data [err|]] i'] n]|];
      [ | | discriminate].
    + intros [= _ <- _]. reflexivity.
    + destruct (length data =? 0); intros [= _ <- _]; reflexivity.
  - intros fuel Hc Ho.
    destruct (sync.writer (telnet.mu c)) eqn:Hw;
      [unfold telnet.Receive, sync.RLock; rewrite Hw; discriminate|].
    destruct (telnet.conn c) as [cn|] eqn:Hcn; [|contradiction].
    destruct (telnet.out c) as [o|] eqn:Hout; [|contradiction].
    rewrite (Receive_present fuel c cn o Hw Hcn Hout).
    destruct (telnet.readOut fuel cn) as [[[[data [err|]] cn'] n]|];
      [ | | discriminate].
    + intros [= _ <- _]. reflexivity.
    + intros [= _ <- _]. reflexivity.
Qed.

(** X6: on a client without input stream, a [Close] that has returned
    makes every later [Close] return [nil] at once, with no call and no
    change. *)
Theorem X6_close_again_without_input :
  forall (c c1 : telnet.client I O C) (e : option error)
         (calls : list telnet.call),
    telnet.in_ c = None ->
    telnet.Close c = telnet.Returns (e, c1, calls) ->
    telnet.Close c1 = telnet.Returns (None, c1, []).
Proof.
  intros c c1 e calls. unfold telnet.Close, sync.Lock.
  destruct c as [[n w] a t i o cn]; cbn. intros ->.
  destruct w; [discriminate|]. destruct n; [|discriminate]. cbn.
  destruct cn as [cn|].
  - destruct (io.Close cn). intros [= _ <- _]. reflexivity.
  - intros [= _ <- _]. reflexivity.
Qed.

(** X7: after a [Close] that has returned, [Send] and [Receive] make no
    call and return the configuration error that reports the connection
    absent; main.go sorts that error as unexpected, not as a closed
    connection. *)
Theorem X7_use_after_close :
  forall (fuel : nat) (c c1 : telnet.client I O C) (e : option error)
         (calls : list telnet.call),
    telnet.Close c = telnet.Returns (e, c1, calls) ->
    telnet.Send fuel c1 =
    telnet.Returns (Some (nil_input true (telnet.isNil (telnet.in_ c))),
                    telnet.set_mu c1 (sync.mkRWMutex 1 false), [])
    /\ telnet.Receive fuel c1 =
       telnet.Returns (Some (nil_output true (telnet.isNil (telnet.out c))),
                       telnet.set_mu c1 (sync.mkRWMutex 1 false), [])
    /\ (forall x y, main.classify (nil_input x y) = main.Unexpected)
    /\ (forall x y, main.classify (nil_output x y) = main.Unexpected).
Proof.
  intros fuel c c1 e calls. unfold telnet.Close, sync.Lock.
  destruct c as [[n w] a t i o cn]; cbn.
  destruct w; [discriminate|]. destruct n; [|discriminate]. cbn.
  assert (Hgoal :
            forall i' : option I,
              telnet.isNil i' = telnet.isNil i ->
              let c1 := telnet.mkClient (sync.Unlock (sync.mkRWMutex 0 true))
                                        a t i' o None in
              telnet.Send fuel c1 =
              telnet.Returns (Some (nil_input true (telnet.isNil i)),
                              telnet.set_mu c1 (sync.mkRWMutex 1 false), [])
              /\ telnet.Receive fuel c1 =
                 telnet.Returns (Some (nil_output true (telnet.isNil o)),
                                 telnet.set_mu c1 (sync.mkRWMutex 1 false), [])
              /\ (forall x y, main.classify (nil_input x y) = main.Unexpected)
              /\ (forall x y, main.classify (nil_output x y) = main.Unexpected)).
  { intros i' Hi'. cbn. split; [|split; [|split]].
    - unfold telnet.Send. cbn. rewrite <- Hi'. reflexivity.
    - unfold telnet.Receive. cbn. destruct o; reflexivity.
    - reflexivity.
    - reflexivity. }
  destruct cn as [cn|], i as [i|].
  - destruct (io.Close i), (io.Close cn). intros [= _ <- _].
    apply (Hgoal (Some _)). reflexivity.
  - destruct (io.Close cn). intros [= _ <- _]. apply (Hgoal None). reflexivity.
  - destruct (io.Close i). intros [= _ <- _].
    apply (Hgoal (Some _)). reflexivity.
  - intros [= _ <- _]. apply (Hgoal None). reflexivity.
Qed.

(** X8: on a client whose lock is free and that holds a connection,
    [Connect] dials again and stores the new handle in place of the old
    one, with no call on the old connection.  The [Close] that follows
    closes the new connection, and no other (a failure of that close is
    the error returned), and no later [Close] closes a connection: the old
    connection is never closed. *)
Theorem X8_connect_replaces_connection :
  forall (dial : string -> string -> Z -> C + error)
         (c : telnet.client I O C) (cn1 cn2 : C),
    telnet.mu c = sync.zero ->
    telnet.conn c = Some cn1 ->
    dial "tcp"%string (telnet.address c) (telnet.timeout c) = inl cn2 ->
    telnet.Connect dial c =
    telnet.Returns
      (None, telnet.set_conn c (Some cn2),
       [telnet.Dial "tcp" (telnet.address c) (telnet.timeout c)])
    /\ exists (e : option error) (c3 : telnet.client I O C)
              (calls : list telnet.call),
        telnet.Close (telnet.set_conn c (Some cn2)) =
        telnet.Returns (e, c3, calls) /\
        (calls = [telnet.Cl telnet.Connection] \/
         calls = [telnet.Cl telnet.Input; telnet.Cl telnet.Connection]) /\
        (forall x : error, fst (io.Close cn2) = Some x -> e = Some x) /\
        telnet.conn c3 = None /\
        (forall (e' : option error) (c4 : telnet.client I O C)
                (calls' : list telnet.call),
            telnet.Close c3 = telnet.Returns (e', c4, calls') ->
            ~ In (telnet.Cl telnet.Connection) calls').
Proof.
  intros dial c cn1 cn2 Hmu Hconn Hdial. split.
  - unfold telnet.Connect. rewrite Hmu. cbn. rewrite Hdial.
    destruct c as [m a t i o cn]. cbn in *. subst m. reflexivity.
  - unfold telnet.Close. destruct c as [m a t i o cn]. cbn in Hmu |- *.
    subst m. cbn. destruct i as [i|].
    + destruct (io.Close i) as [inErr i'] eqn:Hi.
      destruct (io.Close cn2) as [err cn2'] eqn:Hc2.
      eexists; eexists; eexists. split; [reflexivity|].
      split; [right; reflexivity|].
      split; [cbn; intros x ->; reflexivity|].
      split; [reflexivity|].
      intros e' c4 calls'. cbn. destruct (io.Close i').
      intros [= _ _ <-]. cbn. intuition discriminate.
    + destruct (io.Close cn2) as [err cn2'] eqn:Hc2.
      eexists; eexists; eexists. split; [reflexivity|].
      split; [left; reflexivity|].
      split; [cbn; intros x ->; reflexivity|].
      split; [reflexivity|].
      intros e' c4 calls'. cbn. intros [= _ _ <-]. cbn. intuition.
Qed.

(** X9: an input stream whose [Read] keeps returning no byte and no error
    does not hang [Send]: after a hundred reads it returns a reading
    failure, with no write and the client as it was. *)
Theorem X9_idle_input_fails_send :
  forall (fuel : nat) (c : telnet.client I O C) (cn : C) (i : I),
    2 <= fuel ->
    sync.writer (telnet.mu c) = false ->
    telnet.conn c = Some cn ->
    telnet.in_ c = Some i ->
    (forall n, io.Read i n = ([], None, i)) ->
    telnet.Send fuel c =
    telnet.Returns (Some (reading_failed (Sentinel io_ErrNoProgress)), c,
                    repeat (telnet.Rd telnet.Input)
                           bufio.maxConsecutiveEmptyReads).
Proof.
  intros fuel c cn i Hfuel Hw Hconn Hin Hidle.
  rewrite (Send_present fuel c cn i Hw Hconn Hin).
  rewrite (readOut_idle fuel i Hfuel Hidle).
  destruct c as [m a t i0 o cn0]. cbn in Hin. subst i0. reflexivity.
Qed.

End ClientMore.

(** * The relay on clean in-memory streams *)

Section Lossless.

Lemma same_sink_refl (s : mem.stream) : mem.same_sink s s.
Proof. repeat split. Qed.

Lemma same_sink_trans (s1 s2 s3 : mem.stream) :
  mem.same_sink s1 s2 -> mem.same_sink s2 s3 -> mem.same_sink s1 s3.
Proof.
  unfold mem.same_sink. intros (A1 & A2 & A3 & A4) (B1 & B2 & B3 & B4).
  repeat split; congruence.
Qed.

Lemma clean_nil_bytes (p : list (list byte * option error)) :
  mem.clean p = true -> mem.bytes_of p = [] -> p = [].
Proof.
  destruct p as [|[[|x d] e] p]; cbn; try reflexivity; discriminate.
Qed.

(** A [Read] on a clean stream meets the end of the stream, or takes a
    first piece of what the stream holds and leaves the rest. *)
Lemma mem_Read_clean (s s' : mem.stream) (n : nat) (data : list byte)
      (e : option error) :
  0 < n ->
  mem.clean (mem.pending s) = true ->
  mem.Read s n = (data, e, s') ->
  (mem.pending s = [] /\ data = [] /\ e = Some (Sentinel io_EOF) /\ s' = s) \/
  (e = None /\ data <> [] /\
   data ++ mem.bytes_of (mem.pending s') = mem.bytes_of (mem.pending s) /\
   mem.clean (mem.pending s') = true /\
   mem.same_sink s s' /\
   mem.weight (mem.pending s') <= mem.weight (mem.pending s)).
Proof.
  intros Hn. unfold mem.Read.
  destruct (mem.pending s) as [|[d e0] rest] eqn:Hp.
  - intros _ [= <- <- <-]. left. repeat split.
  - cbn [mem.clean forallb]. destruct d as [|x d]; [discriminate|].
    destruct e0; [discriminate|]. cbn [andb]. intros Hclean.
    fold (mem.clean rest) in Hclean.
    destruct (Nat.leb_spec (length (x :: d)) n) as [Hle|Hgt];
      intros [= <- <- <-]; right; cbn [mem.pending].
    + repeat split; try assumption; try discriminate.
      cbn [mem.weight]. lia.
    + assert (Hsk : skipn n (x :: d) <> []).
      { intros Heq. apply (f_equal (@length byte)) in Heq.
        rewrite length_skipn in Heq. cbn [length] in Heq, Hgt. lia. }
      split; [reflexivity|]. split.
      { intros Heq. apply (f_equal (@length byte)) in Heq.
        rewrite length_firstn in Heq. cbn [length] in Heq, Hgt. lia. }
      split.
      { unfold mem.bytes_of. cbn [map concat fst].
        rewrite app_assoc, firstn_skipn. reflexivity. }
      split.
      { cbn [mem.clean forallb].
        destruct (skipn n (x :: d)); [contradiction | exact Hclean]. }
      split; [repeat split|].
      cbn [mem.weight]. rewrite length_skipn. lia.
Qed.

Lemma IndexByte_firstn (l : list byte) (c : byte) (i : nat) :
  bytes.IndexByte l c = Some i -> firstn (i + 1) l = firstn i l ++ [c].
Proof.
  revert i; induction l as [|x l IH]; cbn [bytes.IndexByte]; intros i;
    [discriminate|].
  destruct (Byte.eqb x c) eqn:Hx.
  - intros [= <-]. apply Byte.byte_dec_bl in Hx. subst x. reflexivity.
  - destruct (bytes.IndexByte l c) as [j|]; [|discriminate].
    intros [= <-]. cbn [Nat.add firstn app]. rewrite (IH j eq_refl).
    reflexivity.
Qed.

Lemma IndexByte_app_None (l m : list byte) (c : byte) :
  bytes.IndexByte l c = None -> bytes.IndexByte m c = None ->
  bytes.IndexByte (l ++ m) c = None.
Proof.
  intros Hl Hm. induction l as [|x l IH]; cbn [app bytes.IndexByte] in *;
    [exact Hm|].
  destruct (Byte.eqb x c); [discriminate|].
  destruct (bytes.IndexByte l c); [discriminate|].
  rewrite (IH eq_refl). reflexivity.
Qed.

Lemma IndexByte_snoc (t : list byte) (c : byte) :
  bytes.IndexByte (t ++ [c]) c <> None.
Proof.
  destruct (IndexByte_ends t c) as (i & Hi & _). rewrite Hi. discriminate.
Qed.

Lemma app_ends_in (x y t : list byte) (c : byte) :
  x ++ y = t ++ [c] -> y <> [] -> exists t', y = t' ++ [c].
Proof.
  intros Heq Hy. destruct (exists_last Hy) as (y' & a & ->).
  rewrite app_assoc in Heq. apply app_inj_tail in Heq as [_ ->].
  exists y'. reflexivity.
Qed.

(** [fill] on a clean stream moves bytes from the stream to the buffer,
    or notes the end of the stream. *)
Lemma fill_good (b : bufio.Reader mem.stream) :
  mem.good b ->
  bufio.err b = None ->
  length (bufio.buf b) < bufio.size b ->
  mem.good (bufio.fill b) /\
  mem.content (bufio.fill b) = mem.content b /\
  bufio.size (bufio.fill b) = bufio.size b /\
  mem.same_sink (bufio.rd b) (bufio.rd (bufio.fill b)) /\
  mem.weight (mem.pending (bufio.rd (bufio.fill b)))
  <= mem.weight (mem.pending (bufio.rd b)).
Proof.
  intros [Hclean _] Herr Hroom.
  destruct (io.Read (bufio.rd b) (bufio.size b - length (bufio.buf b)))
    as [[data e] s'] eqn:Hr.
  assert (Hn : 0 < bufio.size b - length (bufio.buf b)) by lia.
  destruct (mem_Read_clean _ _ _ _ _ Hn Hclean Hr)
    as [(Hp & -> & -> & ->) | (-> & Hdata & Hbytes & Hclean' & Hsink & Hw)].
  - rewrite (fill_step b [] (Some (Sentinel io_EOF)) (bufio.rd b) Hr)
      by (left; discriminate).
    unfold mem.good, mem.content.
    cbn [bufio.rd bufio.buf bufio.err bufio.size].
    rewrite app_nil_r.
    split; [split; [exact Hclean | right; split; [reflexivity | exact Hp]]|].
    split; [reflexivity|]. split; [reflexivity|].
    split; [apply same_sink_refl | lia].
  - rewrite (fill_step b data None s' Hr) by (right; exact Hdata).
    unfold mem.good, mem.content.
    cbn [bufio.rd bufio.buf bufio.err bufio.size].
    split; [split; [exact Hclean' | left; exact Herr]|].
    split; [rewrite <- app_assoc, Hbytes; reflexivity|].
    split; [reflexivity|]. split; assumption.
Qed.

(** What [ReadSlice] returns on a clean stream is the first bytes of what
    reader and stream held, and the rest is still there. *)
Lemma ReadSlice_good (fuel : nat) (delim : byte) :
  forall (b b' : bufio.Reader mem.stream) (line : list byte)
         (e : option error),
    mem.good b ->
    bufio.ReadSlice fuel b delim = Some (line, e, b') ->
    mem.good b' /\
    line ++ mem.content b' = mem.content b /\
    bufio.size b' = bufio.size b /\
    mem.same_sink (bufio.rd b) (bufio.rd b') /\
    mem.weight (mem.pending (bufio.rd b'))
    <= mem.weight (mem.pending (bufio.rd b)) /\
    match e with
    | None => exists p, line = p ++ [delim]
    | Some e' =>
        bytes.IndexByte line delim = None /\
        bufio.buf b' = [] /\
        (e' = Sentinel bufio_ErrBufferFull \/
         (e' = Sentinel io_EOF /\ mem.pending (bufio.rd b') = []))
    end.
Proof.
  induction fuel as [|fuel IH]; intros b b' line e Hgood Hrs; [discriminate|].
  cbn [bufio.ReadSlice] in Hrs.
  destruct (bytes.IndexByte (bufio.buf b) delim) as [i|] eqn:Hi.
  - injection Hrs as <- <- <-.
    split; [exact Hgood|].
    split; [unfold mem.content; cbn [bufio.buf bufio.rd];
            rewrite app_assoc, firstn_skipn; reflexivity|].
    split; [reflexivity|]. split; [apply same_sink_refl|].
    split; [apply le_n|].
    exists (firstn i (bufio.buf b)). apply IndexByte_firstn, Hi.
  - destruct (bufio.err b) as [e0|] eqn:He.
    + injection Hrs as <- <- <-.
      destruct Hgood as [Hclean [Hnone | [He0 Hp]]]; [congruence|].
      assert (e0 = Sentinel io_EOF) by congruence. subst e0.
      split; [split; [exact Hclean | left; reflexivity]|].
      split; [unfold mem.content; cbn [bufio.buf bufio.rd]; reflexivity|].
      split; [reflexivity|]. split; [apply same_sink_refl|].
      split; [apply le_n|].
      split; [exact Hi|]. split; [reflexivity|].
      right. split; [reflexivity | exact Hp].
    + destruct (bufio.size b <=? bufio.Buffered b) eqn:Hfull.
      * injection Hrs as <- <- <-.
        destruct Hgood as [Hclean _].
        split; [split; [exact Hclean | left; reflexivity]|].
        split; [unfold mem.content; cbn [bufio.buf bufio.rd]; reflexivity|].
        split; [reflexivity|]. split; [apply same_sink_refl|].
        split; [apply le_n|].
        split; [exact Hi|]. split; [reflexivity|]. left. reflexivity.
      * apply Nat.leb_gt in Hfull. unfold bufio.Buffered in Hfull.
        destruct (fill_good b Hgood He Hfull) as (Hg1 & Hc1 & Hs1 & Hk1 & Hw1).
        destruct (IH (bufio.fill b) b' line e Hg1 Hrs)
          as (Hg & Hc & Hs & Hk & Hw & Hend).
        split; [exact Hg|]. split; [congruence|]. split; [congruence|].
        split; [exact (same_sink_trans _ _ _ Hk1 Hk)|].
        split; [lia | exact Hend].
Qed.

Lemma collectFragments_good (fuel : nat) (delim : byte) :
  forall (b b' : bufio.Reader mem.stream) (full out : list byte)
         (e : option error),
    mem.good b ->
    bufio.collectFragments fuel b delim full = Some (out, e, b') ->
    exists piece : list byte,
      out = full ++ piece /\
      mem.good b' /\
      piece ++ mem.content b' = mem.content b /\
      bufio.size b' = bufio.size b /\
      mem.same_sink (bufio.rd b) (bufio.rd b') /\
      mem.weight (mem.pending (bufio.rd b'))
      <= mem.weight (mem.pending (bufio.rd b)) /\
      match e with
      | None => exists p, piece = p ++ [delim]
      | Some e' =>
          bytes.IndexByte piece delim = None /\
          bufio.buf b' = [] /\
          e' = Sentinel io_EOF /\ mem.pending (bufio.rd b') = []
      end.
Proof.
  induction fuel as [|fuel IH]; intros b b' full out e Hgood Hcf;
    [discriminate|].
  cbn [bufio.collectFragments] in Hcf.
  destruct (bufio.ReadSlice (S fuel) b delim) as [[[frag e1] b1]|] eqn:Hrs;
    [|discriminate].
  destruct (ReadSlice_good (S fuel) delim b b1 frag e1 Hgood Hrs)
    as (Hg1 & Hc1 & Hs1 & Hk1 & Hw1 & Hend1).
  destruct e1 as [e1|].
  - destruct Hend1 as (Hno & Hbuf1 & Hkind).
    destruct (errors.same e1 bufio_ErrBufferFull) eqn:Hsame.
    + destruct (IH b1 b' (full ++ frag) out e Hg1 Hcf)
        as (piece & Hout & Hg & Hc & Hs & Hk & Hw & Hend).
      exists (frag ++ piece).
      split; [rewrite Hout, app_assoc; reflexivity|].
      split; [exact Hg|].
      split; [rewrite <- app_assoc, Hc; exact Hc1|].
      split; [congruence|].
      split; [exact (same_sink_trans _ _ _ Hk1 Hk)|].
      split; [lia|].
      destruct e as [e'|].
      * destruct Hend as (Hno' & Hrest).
        split; [apply IndexByte_app_None; assumption | exact Hrest].
      * destruct Hend as (p & ->). exists (frag ++ p).
        rewrite app_assoc. reflexivity.
    + injection Hcf as <- <- <-.
      exists frag. split; [reflexivity|]. split; [exact Hg1|].
      split; [exact Hc1|]. split; [exact Hs1|]. split; [exact Hk1|].
      split; [exact Hw1|].
      destruct Hkind as [-> | [-> Hp]]; [discriminate|].
      split; [exact Hno|]. split; [exact Hbuf1|]. split; [reflexivity|].
      exact Hp.
  - injection Hcf as <- <- <-.
    exists frag. split; [reflexivity|]. split; [exact Hg1|].
    split; [exact Hc1|]. split; [exact Hs1|]. split; [exact Hk1|].
    split; [exact Hw1 | exact Hend1].
Qed.

Lemma readOut_loop_good (fuel : nat) :
  forall (reader r' : bufio.Reader mem.stream) (res data : list byte)
         (err : option error),
    mem.good reader ->
    mem.ends_in telnet.newline (mem.content reader) ->
    telnet.readOut_loop fuel reader res = Some (data, err, r') ->
    mem.same_sink (bufio.rd reader) (bufio.rd r') /\
    mem.weight (mem.pending (bufio.rd r'))
    <= mem.weight (mem.pending (bufio.rd reader)) /\
    match err with
    | None =>
        exists piece p : list byte,
          data = res ++ piece /\
          piece = p ++ [telnet.newline] /\
          piece ++ mem.bytes_of (mem.pending (bufio.rd r'))
          = mem.content reader /\
          mem.clean (mem.pending (bufio.rd r')) = true
    | Some e =>
        e = Sentinel ErrEOT /\ data = [] /\
        mem.content reader = [] /\ mem.pending (bufio.rd r') = []
    end.
Proof.
  induction fuel as [|fuel IH]; intros reader r' res data err Hgood Hends Hl;
    [discriminate|].
  cbn [telnet.readOut_loop] in Hl. unfold bufio.ReadBytes in Hl.
  destruct (bufio.collectFragments (S fuel) reader telnet.newline [])
    as [[[line e1] r1]|] eqn:Hcf; [|discriminate].
  destruct (collectFragments_good (S fuel) telnet.newline reader r1 [] line e1
                                  Hgood Hcf)
    as (piece & Hout & Hg1 & Hc1 & Hs1 & Hk1 & Hw1 & Hend).
  cbn [app] in Hout. subst line.
  destruct e1 as [e1|].
  - destruct Hend as (Hno & Hbuf & -> & Hp).
    cbn [errors.Is errors.sentinel_eqb] in Hl.
    unfold bufio.Buffered in Hl. rewrite Hbuf in Hl. cbn [length Nat.eqb] in Hl.
    injection Hl as <- <- <-.
    split; [exact Hk1|]. split; [exact Hw1|].
    split; [reflexivity|]. split; [reflexivity|]. split; [|exact Hp].
    unfold mem.content in Hc1 at 1. rewrite Hbuf, Hp in Hc1.
    cbn [mem.bytes_of map concat app] in Hc1. rewrite app_nil_r in Hc1.
    destruct Hends as [Hnil | (t & Ht)]; [exact Hnil|].
    exfalso. rewrite <- Hc1 in Ht. subst piece.
    exact (IndexByte_snoc t telnet.newline Hno).
  - destruct Hend as (p & ->).
    destruct (bufio.Buffered r1 =? 0) eqn:Hb.
    + injection Hl as <- <- <-.
      apply Nat.eqb_eq in Hb. unfold bufio.Buffered in Hb.
      apply length_zero_iff_nil in Hb.
      split; [exact Hk1|]. split; [exact Hw1|].
      exists (p ++ [telnet.newline]), p.
      split; [reflexivity|]. split; [reflexivity|].
      split; [|exact (proj1 Hg1)].
      unfold mem.content in Hc1 at 1. rewrite Hb in Hc1. exact Hc1.
    + apply Nat.eqb_neq in Hb. unfold bufio.Buffered in Hb.
      assert (Hne : mem.content r1 <> []).
      { unfold mem.content. intros Heq. apply app_eq_nil in Heq as [Heq _].
        rewrite Heq in Hb. apply Hb. reflexivity. }
      assert (Hends1 : mem.ends_in telnet.newline (mem.content r1)).
      { right. destruct Hends as [Hnil | (t & Ht)].
        - rewrite Hnil in Hc1. apply app_eq_nil in Hc1 as [_ Hc1].
          contradiction.
        - rewrite Ht in Hc1. exact (app_ends_in _ _ _ _ Hc1 Hne). }
      destruct (IH r1 r' (res ++ p ++ [telnet.newline]) data err Hg1 Hends1 Hl)
        as (Hk & Hw & Hres).
      split; [exact (same_sink_trans _ _ _ Hk1 Hk)|]. split; [lia|].
      destruct err as [e|].
      * destruct Hres as (_ & _ & Hnil & _). contradiction.
      * destruct Hres as (piece' & p' & Hdata & Hp' & Hc & Hclean).
        exists ((p ++ [telnet.newline]) ++ piece'),
               ((p ++ [telnet.newline]) ++ p').
        split; [rewrite Hdata, <- !app_assoc; reflexivity|].
        split; [rewrite Hp', <- !app_assoc; reflexivity|].
        split; [rewrite <- app_assoc, Hc; exact Hc1 | exact Hclean].
Qed.

(** [readOut] on a clean stream whose bytes end in a newline, when it
    returns: no error, a first part of the bytes that ends in a newline,
    and the rest left in the stream; on a clean stream with no byte
    left: the end-of-transmission sentinel. *)
Lemma readOut_good (fuel : nat) (s s' : mem.stream) (data : list byte)
      (err : option error) (n : nat) :
  mem.clean (mem.pending s) = true ->
  mem.ends_in telnet.newline (mem.bytes_of (mem.pending s)) ->
  telnet.readOut fuel s = Some (data, err, s', n) ->
  mem.same_sink s s' /\
  mem.weight (mem.pending s') <= mem.weight (mem.pending s) /\
  match err with
  | None =>
      (exists p, data = p ++ [telnet.newline]) /\
      data ++ mem.bytes_of (mem.pending s') = mem.bytes_of (mem.pending s) /\
      mem.clean (mem.pending s') = true
  | Some e =>
      e = Sentinel ErrEOT /\ data = [] /\
      mem.bytes_of (mem.pending s) = [] /\ mem.pending s' = []
  end.
Proof.
  intros Hclean Hends. unfold telnet.readOut.
  destruct (telnet.readOut_loop fuel (bufio.NewReader s) [])
    as [[[d e] r]|] eqn:Hl; [|discriminate].
  intros [= -> -> <- _].
  assert (Hgood : mem.good (bufio.NewReader s))
    by (split; [exact Hclean | left; reflexivity]).
  destruct (readOut_loop_good fuel (bufio.NewReader s) r [] data err
                              Hgood Hends Hl) as (Hk & Hw & Hres).
  split; [exact Hk|]. split; [exact Hw|].
  destruct err as [e|]; [exact Hres|].
  destruct Hres as (piece & p & -> & -> & Hc & Hcl).
  split; [exists p; reflexivity|]. split; [exact Hc | exact Hcl].
Qed.

Lemma IndexByte_mid (p r : list byte) (c : byte) :
  bytes.IndexByte (p ++ c :: r) c <> None.
Proof.
  induction p as [|x p IH]; cbn [app bytes.IndexByte].
  - rewrite (Byte.byte_dec_lb (eq_refl c)). discriminate.
  - destruct (Byte.eqb x c); [discriminate|].
    destruct (bytes.IndexByte (p ++ c :: r) c); [discriminate | contradiction].
Qed.

(** A part that ends in a newline, of bytes whose only newline is the
    last byte, is all of them. *)
Lemma one_line_whole (p rest t : list byte) (c : byte) :
  (p ++ [c]) ++ rest = t ++ [c] ->
  bytes.IndexByte t c = None ->
  rest = [].
Proof.
  intros Heq Hno. destruct rest as [|a rest]; [reflexivity|].
  exfalso.
  assert (Hne : a :: rest <> []) by discriminate.
  destruct (exists_last Hne) as (r' & z & Hr). rewrite Hr in Heq.
  rewrite app_assoc in Heq. apply app_inj_tail in Heq as [Ht _].
  rewrite <- Ht, <- app_assoc in Hno. cbn [app] in Hno.
  exact (IndexByte_mid p r' c Hno).
Qed.

(** X10: on a clean in-memory stream whose bytes end in a newline, however
    they are cut into reads and however long the lines, [readOut] returns
    with no error a first part of the bytes that itself ends in a newline,
    and leaves exactly the rest in the stream: nothing is lost, doubled or
    reordered, and no line is cut. *)
Theorem X10_readOut_keeps_every_byte :
  forall (fuel : nat) (s : mem.stream) (t : list byte),
    mem.clean (mem.pending s) = true ->
    mem.bytes_of (mem.pending s) = t ++ [telnet.newline] ->
    mem.weight (mem.pending s) + 3 <= fuel ->
    exists (data : list byte) (s' : mem.stream) (n : nat),
      telnet.readOut fuel s = Some (data, None, s', n) /\
      (exists p, data = p ++ [telnet.newline]) /\
      data ++ mem.bytes_of (mem.pending s') = mem.bytes_of (mem.pending s) /\
      mem.clean (mem.pending s') = true /\
      mem.same_sink s s'.
Proof.
  intros fuel s t Hclean Hbytes Hfuel.
  destruct (readOut_terminates fuel s Hfuel) as ([[[data err] s'] n] & Hro).
  assert (Hends : mem.ends_in telnet.newline (mem.bytes_of (mem.pending s)))
    by (right; exists t; exact Hbytes).
  destruct (readOut_good fuel s s' data err n Hclean Hends Hro)
    as (Hk & _ & Hres).
  destruct err as [e|].
  - destruct Hres as (_ & _ & Hnil & _). rewrite Hbytes in Hnil.
    destruct t; discriminate.
  - destruct Hres as (Hp & Hc & Hcl).
    exists data, s', n.
    split; [exact Hro|]. split; [exact Hp|]. split; [exact Hc|].
    split; [exact Hcl | exact Hk].
Qed.

(** X11: a single line of any length, held by a clean in-memory stream in
    any number of pieces, is returned whole by one [readOut], which leaves
    the stream empty. *)
Theorem X11_readOut_returns_a_line_whole :
  forall (fuel : nat) (s : mem.stream) (t : list byte),
    mem.clean (mem.pending s) = true ->
    mem.bytes_of (mem.pending s) = t ++ [telnet.newline] ->
    bytes.IndexByte t telnet.newline = None ->
    mem.weight (mem.pending s) + 3 <= fuel ->
    exists (s' : mem.stream) (n : nat),
      telnet.readOut fuel s = Some (t ++ [telnet.newline], None, s', n) /\
      mem.pending s' = [] /\
      mem.same_sink s s'.
Proof.
  intros fuel s t Hclean Hbytes Hno Hfuel.
  destruct (readOut_terminates fuel s Hfuel) as ([[[data err] s'] n] & Hro).
  assert (Hends : mem.ends_in telnet.newline (mem.bytes_of (mem.pending s)))
    by (right; exists t; exact Hbytes).
  destruct (readOut_good fuel s s' data err n Hclean Hends Hro)
    as (Hk & _ & Hres).
  destruct err as [e|].
  - destruct Hres as (_ & _ & Hnil & _). rewrite Hbytes in Hnil.
    destruct t; discriminate.
  - destruct Hres as ((p & ->) & Hc & Hcl).
    rewrite Hbytes in Hc.
    pose proof (one_line_whole _ _ _ _ Hc Hno) as Hrest.
    rewrite Hrest, app_nil_r in Hc.
    exists s', n. rewrite <- Hc.
    split; [exact Hro|].
    split; [exact (clean_nil_bytes _ Hcl Hrest) | exact Hk].
Qed.

(** *** One step of a relay loop *)

Lemma writeOut_mem (w : mem.stream) (data : list byte) :
  mem.wfail w = None ->
  telnet.writeOut w data =
  (None, mem.mkStream (mem.pending w) (mem.sent w ++ data) None
                      (mem.closes w) (mem.close_results w)).
Proof.
  intros Hw. unfold telnet.writeOut.
  change (io.Write w data) with (mem.Write w data).
  unfold mem.Write. rewrite Hw. reflexivity.
Qed.

Lemma mem_Read_end (s : mem.stream) (n : nat) :
  mem.pending s = [] -> io.Read s n = ([], Some (Sentinel io_EOF), s).
Proof.
  intros Hp. change (io.Read s n) with (mem.Read s n).
  unfold mem.Read. rewrite Hp. reflexivity.
Qed.

Lemma ends_in_rest (data rest t : list byte) (c : byte) :
  data ++ rest = t ++ [c] -> mem.ends_in c rest.
Proof.
  intros Heq. destruct rest as [|a rest]; [left; reflexivity|].
  right. apply (app_ends_in data (a :: rest) t c Heq). discriminate.
Qed.

Lemma Send_clean_step (fuel : nat)
      (c : telnet.client mem.stream mem.stream mem.stream)
      (cn i : mem.stream) (t : list byte) :
  sync.writer (telnet.mu c) = false ->
  telnet.conn c = Some cn ->
  mem.wfail cn = None ->
  telnet.in_ c = Some i ->
  mem.clean (mem.pending i) = true ->
  mem.bytes_of (mem.pending i) = t ++ [telnet.newline] ->
  mem.weight (mem.pending i) + 3 <= fuel ->
  exists (data : list byte) (i' : mem.stream) (n : nat),
    telnet.Send fuel c =
    telnet.Returns
      (None,
       telnet.set_conn
         (telnet.set_in c (Some i'))
         (Some (mem.mkStream (mem.pending cn) (mem.sent cn ++ data) None
                             (mem.closes cn) (mem.close_results cn))),
       repeat (telnet.Rd telnet.Input) n
              ++ [telnet.Wr telnet.Connection data]) /\
    data <> [] /\
    data ++ mem.bytes_of (mem.pending i') = mem.bytes_of (mem.pending i) /\
    mem.clean (mem.pending i') = true /\
    mem.weight (mem.pending i') <= mem.weight (mem.pending i) /\
    mem.same_sink i i'.
Proof.
  intros Hw Hconn Hwf Hin Hclean Hbytes Hfuel.
  destruct (readOut_terminates fuel i Hfuel) as ([[[data err] i'] n] & Hro).
  assert (Hends : mem.ends_in telnet.newline (mem.bytes_of (mem.pending i)))
    by (right; exists t; exact Hbytes).
  destruct (readOut_good fuel i i' data err n Hclean Hends Hro)
    as (Hk & Hwt & Hres).
  destruct err as [e|].
  { destruct Hres as (_ & _ & Hnil & _). rewrite Hbytes in Hnil.
    destruct t; discriminate. }
  destruct Hres as ((p & Hp) & Hc & Hcl).
  assert (Hne : data <> []) by (rewrite Hp; destruct p; discriminate).
  exists data, i', n.
  split; [|repeat (split; [assumption|]); assumption].
  rewrite (Send_present fuel c cn i Hw Hconn Hin), Hro.
  destruct data as [|x data]; [contradiction|]. cbn [length Nat.eqb].
  rewrite (writeOut_mem cn (x :: data) Hwf). reflexivity.
Qed.

Lemma Receive_clean_step (fuel : nat)
      (c : telnet.client mem.stream mem.stream mem.stream)
      (cn o : mem.stream) (t : list byte) :
  sync.writer (telnet.mu c) = false ->
  telnet.conn c = Some cn ->
  telnet.out c = Some o ->
  mem.wfail o = None ->
  mem.clean (mem.pending cn) = true ->
  mem.bytes_of (mem.pending cn) = t ++ [telnet.newline] ->
  mem.weight (mem.pending cn) + 3 <= fuel ->
  exists (data : list byte) (cn' : mem.stream) (n : nat),
    telnet.Receive fuel c =
    telnet.Returns
      (None,
       telnet.set_out
         (telnet.set_conn c (Some cn'))
         (Some (mem.mkStream (mem.pending o) (mem.sent o ++ data) None
                             (mem.closes o) (mem.close_results o))),
       repeat (telnet.Rd telnet.Connection) n
              ++ [telnet.Wr telnet.Output data]) /\
    data <> [] /\
    data ++ mem.bytes_of (mem.pending cn') = mem.bytes_of (mem.pending cn) /\
    mem.clean (mem.pending cn') = true /\
    mem.weight (mem.pending cn') <= mem.weight (mem.pending cn) /\
    mem.same_sink cn cn'.
Proof.
  intros Hw Hconn Hout Hwf Hclean Hbytes Hfuel.
  destruct (readOut_terminates fuel cn Hfuel) as ([[[data err] cn'] n] & Hro).
  assert (Hends : mem.ends_in telnet.newline (mem.bytes_of (mem.pending cn)))
    by (right; exists t; exact Hbytes).
  destruct (readOut_good fuel cn cn' data err n Hclean Hends Hro)
    as (Hk & Hwt & Hres).
  destruct err as [e|].
  { destruct Hres as (_ & _ & Hnil & _). rewrite Hbytes in Hnil.
    destruct t; discriminate. }
  destruct Hres as ((p & Hp) & Hc & Hcl).
  assert (Hne : data <> []) by (rewrite Hp; destruct p; discriminate).
  exists data, cn', n.
  split; [|repeat (split; [assumption|]); assumption].
  rewrite (Receive_present fuel c cn o Hw Hconn Hout), Hro.
  rewrite (writeOut_mem o data Hwf). reflexivity.
Qed.

(** *** The relay loops *)

Lemma sender_loop (N : nat) :
  forall (fuel rounds pass : nat) (done : nat -> bool)
         (c : telnet.client mem.stream mem.stream mem.stream)
         (cn i : mem.stream),
    (forall k, done k = false) ->
    sync.writer (telnet.mu c) = false ->
    telnet.conn c = Some cn ->
    mem.wfail cn = None ->
    telnet.in_ c = Some i ->
    mem.clean (mem.pending i) = true ->
    mem.ends_in telnet.newline (mem.bytes_of (mem.pending i)) ->
    mem.weight (mem.pending i) + 3 <= fuel ->
    length (mem.bytes_of (mem.pending i)) <= N ->
    N + 1 <= rounds ->
    exists (c' : telnet.client mem.stream mem.stream mem.stream)
           (i' : mem.stream) (calls : list telnet.call),
      main.loop (telnet.Send fuel) rounds done pass c =
      telnet.Returns (Some (Sentinel ErrEOT), c', calls) /\
      telnet.conn c' =
      Some (mem.mkStream (mem.pending cn)
                         (mem.sent cn ++ mem.bytes_of (mem.pending i)) None
                         (mem.closes cn) (mem.close_results cn)) /\
      telnet.in_ c' = Some i' /\ mem.pending i' = [] /\ mem.same_sink i i' /\
      telnet.out c' = telnet.out c /\ telnet.mu c' = telnet.mu c.
Proof.
  induction N as [|N IH];
    intros fuel rounds pass done c cn i Hdone Hw Hconn Hwf Hin Hclean Hends
           Hfuel Hlen Hrounds;
    (destruct rounds as [|rounds]; [lia|]);
    cbn [main.loop]; rewrite Hdone.
  - (* nothing to relay *)
    assert (Hnil : mem.bytes_of (mem.pending i) = [])
      by (apply length_zero_iff_nil; lia).
    pose proof (clean_nil_bytes _ Hclean Hnil) as Hp.
    rewrite (Send_present fuel c cn i Hw Hconn Hin).
    rewrite (readOut_eof fuel i i (Sentinel io_EOF)
                         ltac:(lia) (mem_Read_end i _ Hp) eq_refl).
    exists (telnet.set_in c (Some i)), i, [telnet.Rd telnet.Input].
    split; [reflexivity|]. rewrite Hnil, app_nil_r.
    split; [cbn [telnet.conn telnet.set_in]; rewrite Hconn;
            destruct cn; cbn in Hwf |- *; subst; reflexivity|].
    split; [reflexivity|]. split; [exact Hp|].
    split; [apply same_sink_refl|]. split; reflexivity.
  - destruct Hends as [Hnil | (t & Ht)].
    + pose proof (clean_nil_bytes _ Hclean Hnil) as Hp.
      rewrite (Send_present fuel c cn i Hw Hconn Hin).
      rewrite (readOut_eof fuel i i (Sentinel io_EOF)
                           ltac:(lia) (mem_Read_end i _ Hp) eq_refl).
      exists (telnet.set_in c (Some i)), i, [telnet.Rd telnet.Input].
      split; [reflexivity|]. rewrite Hnil, app_nil_r.
      split; [cbn [telnet.conn telnet.set_in]; rewrite Hconn;
              destruct cn; cbn in Hwf |- *; subst; reflexivity|].
      split; [reflexivity|]. split; [exact Hp|].
      split; [apply same_sink_refl|]. split; reflexivity.
    + destruct (Send_clean_step fuel c cn i t Hw Hconn Hwf Hin Hclean Ht Hfuel)
        as (data & i1 & n & HSend & Hne & Hc & Hcl1 & Hwt1 & Hk1).
      rewrite HSend.
      set (cn1 := mem.mkStream (mem.pending cn) (mem.sent cn ++ data) None
                               (mem.closes cn) (mem.close_results cn)).
      set (c1 := telnet.set_conn (telnet.set_in c (Some i1)) (Some cn1)).
      assert (Hlen1 : length (mem.bytes_of (mem.pending i1)) <= N).
      { apply (f_equal (@length byte)) in Hc. rewrite length_app in Hc.
        destruct data; [contradiction|]. cbn [length] in Hc. lia. }
      assert (Hends1 : mem.ends_in telnet.newline
                                   (mem.bytes_of (mem.pending i1))).
      { rewrite Ht in Hc. exact (ends_in_rest _ _ _ _ Hc). }
      destruct (IH fuel rounds (S pass) done c1 cn1 i1 Hdone Hw eq_refl eq_refl
                   eq_refl Hcl1 Hends1 ltac:(lia) Hlen1 ltac:(lia))
        as (c' & i' & calls' & Hloop & Hconn' & Hin' & Hp' & Hk' & Hout' & Hmu').
      rewrite Hloop.
      exists c', i', ((repeat (telnet.Rd telnet.Input) n
                              ++ [telnet.Wr telnet.Connection data]) ++ calls').
      split; [reflexivity|].
      split; [rewrite Hconn'; cbn [cn1 mem.pending mem.sent mem.closes
                                       mem.close_results];
              rewrite <- app_assoc, Hc; reflexivity|].
      split; [exact Hin'|]. split; [exact Hp'|].
      split; [exact (same_sink_trans _ _ _ Hk1 Hk')|].
      split; [exact Hout' | exact Hmu'].
Qed.

Lemma receiver_loop (N : nat) :
  forall (fuel rounds pass : nat) (done : nat -> bool)
         (c : telnet.client mem.stream mem.stream mem.stream)
         (cn o : mem.stream),
    (forall k, done k = false) ->
    sync.writer (telnet.mu c) = false ->
    telnet.conn c = Some cn ->
    telnet.out c = Some o ->
    mem.wfail o = None ->
    mem.clean (mem.pending cn) = true ->
    mem.ends_in telnet.newline (mem.bytes_of (mem.pending cn)) ->
    mem.weight (mem.pending cn) + 3 <= fuel ->
    length (mem.bytes_of (mem.pending cn)) <= N ->
    N + 1 <= rounds ->
    exists (c' : telnet.client mem.stream mem.stream mem.stream)
           (cn' : mem.stream) (calls : list telnet.call),
      main.loop (telnet.Receive fuel) rounds done pass c =
      telnet.Returns (Some (Sentinel ErrEOT), c', calls) /\
      telnet.out c' =
      Some (mem.mkStream (mem.pending o)
                         (mem.sent o ++ mem.bytes_of (mem.pending cn)) None
                         (mem.closes o) (mem.close_results o)) /\
      telnet.conn c' = Some cn' /\ mem.pending cn' = [] /\
      mem.same_sink cn cn' /\
      telnet.in_ c' = telnet.in_ c /\ telnet.mu c' = telnet.mu c.
Proof.
  induction N as [|N IH];
    intros fuel rounds pass done c cn o Hdone Hw Hconn Hout Hwf Hclean Hends
           Hfuel Hlen Hrounds;
    (destruct rounds as [|rounds]; [lia|]);
    cbn [main.loop]; rewrite Hdone.
  - assert (Hnil : mem.bytes_of (mem.pending cn) = [])
      by (apply length_zero_iff_nil; lia).
    pose proof (clean_nil_bytes _ Hclean Hnil) as Hp.
    rewrite (Receive_present fuel c cn o Hw Hconn Hout).
    rewrite (readOut_eof fuel cn cn (Sentinel io_EOF)
                         ltac:(lia) (mem_Read_end cn _ Hp) eq_refl).
    exists (telnet.set_conn c (Some cn)), cn, [telnet.Rd telnet.Connection].
    split; [reflexivity|]. rewrite Hnil, app_nil_r.
    split; [cbn [telnet.out telnet.set_conn]; rewrite Hout;
            destruct o; cbn in Hwf |- *; subst; reflexivity|].
    split; [reflexivity|]. split; [exact Hp|].
    split; [apply same_sink_refl|]. split; reflexivity.
  - destruct Hends as [Hnil | (t & Ht)].
    + pose proof (clean_nil_bytes _ Hclean Hnil) as Hp.
      rewrite (Receive_present fuel c cn o Hw Hconn Hout).
      rewrite (readOut_eof fuel cn cn (Sentinel io_EOF)
                           ltac:(lia) (mem_Read_end cn _ Hp) eq_refl).
      exists (telnet.set_conn c (Some cn)), cn, [telnet.Rd telnet.Connection].
      split; [reflexivity|]. rewrite Hnil, app_nil_r.
      split; [cbn [telnet.out telnet.set_conn]; rewrite Hout;
              destruct o; cbn in Hwf |- *; subst; reflexivity|].
      split; [reflexivity|]. split; [exact Hp|].
      split; [apply same_sink_refl|]. split; reflexivity.
    + destruct (Receive_clean_step fuel c cn o t Hw Hconn Hout Hwf Hclean Ht
                                   Hfuel)
        as (data & cn1 & n & HRecv & Hne & Hc & Hcl1 & Hwt1 & Hk1).
      rewrite HRecv.
      set (o1 := mem.mkStream (mem.pending o) (mem.sent o ++ data) None
                              (mem.closes o) (mem.close_results o)).
      set (c1 := telnet.set_out (telnet.set_conn c (Some cn1)) (Some o1)).
      assert (Hlen1 : length (mem.bytes_of (mem.pending cn1)) <= N).
      { apply (f_equal (@length byte)) in Hc. rewrite length_app in Hc.
        destruct data; [contradiction|]. cbn [length] in Hc. lia. }
      assert (Hends1 : mem.ends_in telnet.newline
                                   (mem.bytes_of (mem.pending cn1))).
      { rewrite Ht in Hc. exact (ends_in_rest _ _ _ _ Hc). }
      destruct (IH fuel rounds (S pass) done c1 cn1 o1 Hdone Hw eq_refl eq_refl
                   eq_refl Hcl1 Hends1 ltac:(lia) Hlen1 ltac:(lia))
        as (c' & cn' & calls' & Hloop & Hout' & Hconn' & Hp' & Hk' & Hin' & Hmu').
      rewrite Hloop.
      exists c', cn', ((repeat (telnet.Rd telnet.Connection) n
                               ++ [telnet.Wr telnet.Output data]) ++ calls').
      split; [reflexivity|].
      split; [rewrite Hout'; cbn [o1 mem.pending mem.sent mem.closes
                                     mem.close_results];
              rewrite <- app_assoc, Hc; reflexivity|].
      split; [exact Hconn'|]. split; [exact Hp'|].
      split; [exact (same_sink_trans _ _ _ Hk1 Hk')|].
      split; [exact Hin' | exact Hmu'].
Qed.

(** X12: the sender goroutine of main.go, not cancelled, on a clean
    in-memory input whose bytes end in a newline (or that holds none) and
    a connection that takes writes: it writes to the connection exactly
    the bytes of the input, in order, leaves the input empty, and ends by
    reporting the end-of-transmission sentinel, which main.go sorts as the
    end of input. *)
Theorem X12_sender_relays_everything :
  forall (fuel rounds : nat) (done : nat -> bool)
         (c : telnet.client mem.stream mem.stream mem.stream)
         (cn i : mem.stream),
    (forall k, done k = false) ->
    sync.writer (telnet.mu c) = false ->
    telnet.conn c = Some cn ->
    mem.wfail cn = None ->
    telnet.in_ c = Some i ->
    mem.clean (mem.pending i) = true ->
    mem.ends_in telnet.newline (mem.bytes_of (mem.pending i)) ->
    mem.weight (mem.pending i) + 3 <= fuel ->
    length (mem.bytes_of (mem.pending i)) + 1 <= rounds ->
    exists (c' : telnet.client mem.stream mem.stream mem.stream)
           (i' : mem.stream) (calls : list telnet.call),
      main.sender fuel rounds done c =
      telnet.Returns (Some (Sentinel ErrEOT), c', calls) /\
      telnet.conn c' =
      Some (mem.mkStream (mem.pending cn)
                         (mem.sent cn ++ mem.bytes_of (mem.pending i)) None
                         (mem.closes cn) (mem.close_results cn)) /\
      telnet.in_ c' = Some i' /\ mem.pending i' = [] /\ mem.same_sink i i' /\
      telnet.out c' = telnet.out c /\
      main.classify (Sentinel ErrEOT) = main.EOFReceived.
Proof.
  intros fuel rounds done c cn i Hdone Hw Hconn Hwf Hin Hclean Hends Hfuel
         Hrounds.
  destruct (sender_loop (length (mem.bytes_of (mem.pending i)))
                        fuel rounds 0 done c cn i Hdone Hw Hconn Hwf Hin
                        Hclean Hends Hfuel (le_n _) Hrounds)
    as (c' & i' & calls & Hloop & Hconn' & Hin' & Hp' & Hk' & Hout' & _).
  exists c', i', calls. unfold main.sender.
  split; [exact Hloop|]. split; [exact Hconn'|]. split; [exact Hin'|].
  split; [exact Hp'|]. split; [exact Hk'|]. split; [exact Hout' | reflexivity].
Qed.

(** X13: the receiving goroutine of main.go, not cancelled, on a
    connection that holds clean bytes ending in a newline (or none) and an
    output stream that takes writes: it writes to the output stream
    exactly the bytes of the connection, in order, and ends by reporting
    the end-of-transmission sentinel once the peer's bytes are used up. *)
Theorem X13_receiver_relays_everything :
  forall (fuel rounds : nat) (done : nat -> bool)
         (c : telnet.client mem.stream mem.stream mem.stream)
         (cn o : mem.stream),
    (forall k, done k = false) ->
    sync.writer (telnet.mu c) = false ->
    telnet.conn c = Some cn ->
    telnet.out c = Some o ->
    mem.wfail o = None ->
    mem.clean (mem.pending cn) = true ->
    mem.ends_in telnet.newline (mem.bytes_of (mem.pending cn)) ->
    mem.weight (mem.pending cn) + 3 <= fuel ->
    length (mem.bytes_of (mem.pending cn)) + 1 <= rounds ->
    exists (c' : telnet.client mem.stream mem.stream mem.stream)
           (cn' : mem.stream) (calls : list telnet.call),
      main.receiver fuel rounds done c =
      telnet.Returns (Some (Sentinel ErrEOT), c', calls) /\
      telnet.out c' =
      Some (mem.mkStream (mem.pending o)
                         (mem.sent o ++ mem.bytes_of (mem.pending cn)) None
                         (mem.closes o) (mem.close_results o)) /\
      telnet.conn c' = Some cn' /\ mem.pending cn' = [] /\
      mem.same_sink cn cn' /\
      telnet.in_ c' = telnet.in_ c.
Proof.
  intros fuel rounds done c cn o Hdone Hw Hconn Hout Hwf Hclean Hends Hfuel
         Hrounds.
  destruct (receiver_loop (length (mem.bytes_of (mem.pending cn)))
                          fuel rounds 0 done c cn o Hdone Hw Hconn Hout Hwf
                          Hclean Hends Hfuel (le_n _) Hrounds)
    as (c' & cn' & calls & Hloop & Hout' & Hconn' & Hp' & Hk' & Hin' & _).
  exists c', cn', calls. unfold main.receiver.
  split; [exact Hloop|]. split; [exact Hout'|]. split; [exact Hconn'|].
  split; [exact Hp'|]. split; [exact Hk' | exact Hin'].
Qed.

End Lossless.

(** * Where one [readOut] stops *)

Section Stop.

Lemma ends_inb_app (c : byte) (l1 l2 : list byte) :
  l2 <> [] -> mem.ends_inb c (l1 ++ l2) = mem.ends_inb c l2.
Proof.
  intros Hne. induction l1 as [|x l1 IH]; [reflexivity|].
  cbn [app mem.ends_inb]. rewrite <- IH.
  destruct (l1 ++ l2) eqn:Heq; [|reflexivity].
  apply app_eq_nil in Heq as [_ Heq]. contradiction.
Qed.

Lemma ends_inb_snoc (c : byte) (p : list byte) :
  mem.ends_inb c (p ++ [c]) = true.
Proof.
  rewrite ends_inb_app by discriminate. cbn [mem.ends_inb].
  apply Byte.byte_dec_lb. reflexivity.
Qed.

Lemma ends_inb_none (c : byte) (l : list byte) :
  bytes.IndexByte l c = None -> mem.ends_inb c l = false.
Proof.
  induction l as [|x l IH]; [reflexivity|].
  cbn [bytes.IndexByte mem.ends_inb].
  destruct (Byte.eqb x c) eqn:Hx; [discriminate|].
  destruct (bytes.IndexByte l c); [discriminate|]. intros _.
  destruct l; [reflexivity | exact (IH eq_refl)].
Qed.

Lemma unfinished_app (c : byte) (l1 l2 : list byte) :
  forall h : nat,
    mem.unfinished c (l1 ++ l2) h = mem.unfinished c l2 (mem.unfinished c l1 h).
Proof.
  induction l1 as [|x l1 IH]; intros h; [reflexivity|].
  cbn [app mem.unfinished]. destruct (Byte.eqb x c); apply IH.
Qed.

Lemma unfinished_none (c : byte) (l : list byte) :
  forall h : nat,
    bytes.IndexByte l c = None -> mem.unfinished c l h = h + length l.
Proof.
  induction l as [|x l IH]; intros h; cbn [bytes.IndexByte mem.unfinished length];
    [intros _; lia|].
  destruct (Byte.eqb x c); [discriminate|].
  destruct (bytes.IndexByte l c); [discriminate|]. intros _.
  rewrite (IH (S h) eq_refl). lia.
Qed.

Lemma unfinished_snoc (c : byte) (p : list byte) (h : nat) :
  mem.unfinished c (p ++ [c]) h = 0.
Proof.
  rewrite unfinished_app. cbn [mem.unfinished].
  rewrite (Byte.byte_dec_lb (eq_refl c)). reflexivity.
Qed.

Lemma unfinished_le (c : byte) (l : list byte) :
  forall h : nat, mem.unfinished c l h <= h + length l.
Proof.
  induction l as [|x l IH]; intros h; cbn [mem.unfinished length]; [lia|].
  destruct (Byte.eqb x c); [specialize (IH 0) | specialize (IH (S h))]; lia.
Qed.

Lemma mem_Read_length (s s' : mem.stream) (n : nat) (data : list byte)
      (e : option error) :
  mem.Read s n = (data, e, s') -> length data <= n.
Proof.
  unfold mem.Read. destruct (mem.pending s) as [|[d e0] rest].
  - intros [= <- _ _]. cbn. lia.
  - destruct (Nat.leb_spec (length d) n); intros [= <- _ _];
      [assumption | rewrite length_firstn; lia].
Qed.

Lemma carry_lt (h : nat) :
  h <= bufio.defaultBufSize -> mem.carry h < bufio.defaultBufSize.
Proof.
  intros Hh. unfold mem.carry.
  destruct (Nat.eqb_spec h bufio.defaultBufSize);
    [exact defaultBufSize_pos | lia].
Qed.

Lemma weight_zero (p : list (list byte * option error)) :
  mem.weight p = 0 -> p = [].
Proof. destruct p as [|[d e] p]; [reflexivity | discriminate]. Qed.

(** With fuel for what is pending, [after_reads] does not depend on its
    fuel. *)
Lemma after_reads_fuel (k1 : nat) :
  forall (k2 h : nat) (s : mem.stream),
    h < bufio.defaultBufSize ->
    mem.weight (mem.pending s) <= k1 ->
    mem.weight (mem.pending s) <= k2 ->
    mem.after_reads k1 h s = mem.after_reads k2 h s.
Proof.
  induction k1 as [|k1 IH]; intros k2 h s Hh H1 H2.
  - assert (Hp : mem.pending s = []) by (apply weight_zero; lia).
    destruct k2; [reflexivity|].
    cbn [mem.after_reads]. unfold mem.Read. rewrite Hp. reflexivity.
  - destruct k2 as [|k2].
    + assert (Hp : mem.pending s = []) by (apply weight_zero; lia).
      cbn [mem.after_reads]. unfold mem.Read. rewrite Hp. reflexivity.
    + cbn [mem.after_reads].
      destruct (mem.Read s (bufio.defaultBufSize - h)) as [[data e] s'] eqn:Hr.
      destruct data as [|x data]; [reflexivity|].
      destruct (mem.ends_inb telnet.newline (x :: data)); [reflexivity|].
      pose proof (mem_Read_length _ _ _ _ _ Hr) as Hlen.
      pose proof (unfinished_le telnet.newline (x :: data) h) as Hun.
      assert (Hn : 0 < bufio.defaultBufSize - h) by lia.
      destruct (mem_Read_spec _ _ _ _ _ Hn Hr) as [(Hd & _) | (_ & Hlt & _)];
        [discriminate|].
      apply IH; [apply carry_lt; lia | lia | lia].
Qed.

Lemma carry_0 : mem.carry 0 = 0.
Proof. reflexivity. Qed.

Lemma carry_small (h : nat) : h < bufio.defaultBufSize -> mem.carry h = h.
Proof.
  intros Hh. unfold mem.carry.
  destruct (Nat.eqb_spec h bufio.defaultBufSize); [lia | reflexivity].
Qed.

Lemma carry_full : mem.carry bufio.defaultBufSize = 0.
Proof. unfold mem.carry. rewrite Nat.eqb_refl. reflexivity. Qed.

(** A buffer without newline and a stream without bytes do not hold bytes
    that end in a newline. *)
Lemma content_needs_pending (r : bufio.Reader mem.stream) (t : list byte) :
  mem.content r = t ++ [telnet.newline] ->
  bytes.IndexByte (bufio.buf r) telnet.newline = None ->
  mem.pending (bufio.rd r) <> [].
Proof.
  intros Hcont Hno Hp. unfold mem.content in Hcont. rewrite Hp in Hcont.
  cbn [mem.bytes_of map concat] in Hcont. rewrite app_nil_r in Hcont.
  rewrite Hcont in Hno. exact (IndexByte_snoc _ _ Hno).
Qed.

(** [fill] makes the next of the reads still to come. *)
Lemma settled_fill (k : nat) (r : bufio.Reader mem.stream) (t : list byte) :
  mem.in_course r ->
  bufio.err r = None ->
  bytes.IndexByte (bufio.buf r) telnet.newline = None ->
  length (bufio.buf r) < bufio.size r ->
  mem.content r = t ++ [telnet.newline] ->
  mem.weight (mem.pending (bufio.rd r)) <= k ->
  mem.in_course (bufio.fill r) /\
  mem.settled k (bufio.fill r) = mem.settled k r.
Proof.
  intros (Hgood & Hsize & Hlen) Herr Hno Hroom Hcont Hk.
  destruct (fill_good r Hgood Herr Hroom) as (Hg1 & _ & Hs1 & _ & _).
  destruct (io.Read (bufio.rd r) (bufio.size r - length (bufio.buf r)))
    as [[data e] s'] eqn:Hr.
  assert (Hn : 0 < bufio.size r - length (bufio.buf r)) by lia.
  destruct (mem_Read_clean _ _ _ _ _ Hn (proj1 Hgood) Hr)
    as [(Hp & _) | (-> & Hdata & _ & _ & _ & _)].
  { exfalso. exact (content_needs_pending r t Hcont Hno Hp). }
  pose proof (mem_Read_length _ _ _ _ _ Hr) as Hdl.
  destruct (mem_Read_spec _ _ _ _ _ Hn Hr) as [(Hd & _) | (_ & Hlt & _)];
    [contradiction|].
  assert (Hfill : bufio.fill r =
                  bufio.mkReader s' (bufio.buf r ++ data) (bufio.size r)
                                 (bufio.err r) (S (bufio.reads r)))
    by (rewrite (fill_step r data None s' Hr) by (right; exact Hdata);
        reflexivity).
  split.
  - split; [exact Hg1|]. split; [congruence|].
    rewrite Hs1, Hfill. cbn [bufio.buf]. rewrite length_app. lia.
  - rewrite Hfill. unfold mem.settled. cbn [bufio.buf bufio.rd].
    rewrite (ends_inb_none _ _ Hno), (ends_inb_app _ _ _ Hdata).
    rewrite unfinished_app, (unfinished_none _ _ 0 Hno). cbn [Nat.add].
    rewrite (carry_small (length (bufio.buf r))) by lia.
    destruct k as [|k]; [lia|].
    set (later := mem.after_reads (S k) _ s').
    cbn [mem.after_reads].
    change (mem.Read (bufio.rd r)
                     (bufio.size r - length (bufio.buf r)) = (data, None, s'))
      in Hr.
    rewrite Hsize in Hr. rewrite Hr.
    destruct data as [|x data]; [contradiction|].
    destruct (mem.ends_inb telnet.newline (x :: data)); [reflexivity|].
    pose proof (unfinished_le telnet.newline (x :: data)
                              (length (bufio.buf r))) as Hun.
    subst later.
    apply after_reads_fuel; [apply carry_lt; lia | lia | lia].
Qed.

(** [ReadSlice] in the course of one [readOut]: it leaves the stream
    where the reads end when it empties the buffer with a line, and
    otherwise the reads still to come are as before. *)
Lemma settled_ReadSlice (k fuel : nat) :
  forall (r r' : bufio.Reader mem.stream) (line t : list byte)
         (e : option error),
    mem.in_course r ->
    mem.content r = t ++ [telnet.newline] ->
    mem.weight (mem.pending (bufio.rd r)) <= k ->
    bufio.ReadSlice fuel r telnet.newline = Some (line, e, r') ->
    mem.in_course r' /\
    match e with
    | None =>
        (bufio.buf r' = [] -> bufio.rd r' = mem.settled k r) /\
        (bufio.buf r' <> [] -> mem.settled k r' = mem.settled k r)
    | Some _ => mem.settled k r' = mem.settled k r
    end.
Proof.
  induction fuel as [|fuel IH]; intros r r' line t e Hic Hcont Hk Hrs;
    [discriminate|].
  pose proof Hic as (Hgood & Hsize & Hlen).
  cbn [bufio.ReadSlice] in Hrs.
  destruct (bytes.IndexByte (bufio.buf r) telnet.newline) as [i|] eqn:Hi.
  - injection Hrs as <- <- <-.
    assert (Hb : bufio.buf r =
                 (firstn i (bufio.buf r) ++ [telnet.newline])
                   ++ skipn (i + 1) (bufio.buf r))
      by (rewrite <- (IndexByte_firstn _ _ _ Hi), firstn_skipn; reflexivity).
    split.
    { split; [exact Hgood|]. split; [exact Hsize|].
      cbn [bufio.buf bufio.size]. rewrite length_skipn. lia. }
    cbn [bufio.buf bufio.rd]. unfold mem.settled. cbn [bufio.buf bufio.rd].
    set (p := firstn i (bufio.buf r)) in *.
    set (rest := skipn (i + 1) (bufio.buf r)) in *.
    split.
    + intros Hnil. rewrite Hb, Hnil, app_nil_r, ends_inb_snoc. reflexivity.
    + intros Hne. rewrite Hb.
      rewrite (ends_inb_app _ _ _ Hne), unfinished_app, unfinished_snoc.
      reflexivity.
  - destruct (bufio.err r) as [e0|] eqn:He.
    + exfalso. destruct Hgood as [_ [Hnone | [_ Hp]]]; [congruence|].
      exact (content_needs_pending r t Hcont Hi Hp).
    + destruct (bufio.size r <=? bufio.Buffered r) eqn:Hfull.
      * injection Hrs as <- <- <-.
        apply Nat.leb_le in Hfull. unfold bufio.Buffered in Hfull.
        split.
        { split; [split; [exact (proj1 Hgood) | left; reflexivity]|].
          split; [exact Hsize|]. cbn [bufio.buf length]. lia. }
        unfold mem.settled. cbn [bufio.buf bufio.rd].
        rewrite (ends_inb_none _ _ Hi). cbn [mem.ends_inb mem.unfinished].
        rewrite (unfinished_none _ _ 0 Hi). cbn [Nat.add].
        replace (length (bufio.buf r)) with bufio.defaultBufSize by lia.
        rewrite carry_0, carry_full. reflexivity.
      * apply Nat.leb_gt in Hfull. unfold bufio.Buffered in Hfull.
        destruct (fill_good r Hgood He Hfull) as (_ & Hc1 & _ & _ & Hw1).
        destruct (settled_fill k r t Hic He Hi Hfull Hcont Hk) as (Hic1 & Hset).
        rewrite <- Hc1 in Hcont.
        destruct (IH (bufio.fill r) r' line t e Hic1 Hcont ltac:(lia) Hrs)
          as (Hic' & Hres).
        split; [exact Hic'|]. rewrite <- Hset. exact Hres.
Qed.

Lemma settled_collectFragments (k fuel : nat) :
  forall (r r' : bufio.Reader mem.stream) (full out t : list byte)
         (e : option error),
    mem.in_course r ->
    mem.content r = t ++ [telnet.newline] ->
    mem.weight (mem.pending (bufio.rd r)) <= k ->
    bufio.collectFragments fuel r telnet.newline full = Some (out, e, r') ->
    e = None /\
    mem.in_course r' /\
    (bufio.buf r' = [] -> bufio.rd r' = mem.settled k r) /\
    (bufio.buf r' <> [] -> mem.settled k r' = mem.settled k r).
Proof.
  induction fuel as [|fuel IH]; intros r r' full out t e Hic Hcont Hk Hcf;
    [discriminate|].
  cbn [bufio.collectFragments] in Hcf.
  destruct (bufio.ReadSlice (S fuel) r telnet.newline)
    as [[[frag e1] r1]|] eqn:Hrs; [|discriminate].
  destruct (ReadSlice_good (S fuel) telnet.newline r r1 frag e1 (proj1 Hic) Hrs)
    as (_ & Hc1 & _ & _ & Hw1 & Hend1).
  destruct (settled_ReadSlice k (S fuel) r r1 frag t e1 Hic Hcont Hk Hrs)
    as (Hic1 & Hset).
  destruct e1 as [e1|].
  - destruct Hend1 as (Hno & Hbuf1 & Hkind).
    assert (Hne : mem.content r1 <> []).
    { intros Hnil. rewrite Hnil, app_nil_r, Hcont in Hc1. subst frag.
      exact (IndexByte_snoc t telnet.newline Hno). }
    destruct (errors.same e1 bufio_ErrBufferFull) eqn:Hsame.
    + rewrite Hcont in Hc1.
      destruct (app_ends_in _ _ _ _ Hc1 Hne) as (t1 & Ht1).
      destruct (IH r1 r' (full ++ frag) out t1 e Hic1 Ht1 ltac:(lia) Hcf)
        as (He & Hic' & H1 & H2).
      split; [exact He|]. split; [exact Hic'|]. rewrite <- Hset.
      split; assumption.
    + exfalso. destruct Hkind as [-> | [_ Hp]]; [discriminate|].
      apply Hne. unfold mem.content. rewrite Hbuf1, Hp. reflexivity.
  - injection Hcf as <- <- <-.
    split; [reflexivity|]. split; [exact Hic1 | exact Hset].
Qed.

Lemma settled_readOut_loop (k fuel : nat) :
  forall (reader r' : bufio.Reader mem.stream) (res data t : list byte),
    mem.in_course reader ->
    mem.content reader = t ++ [telnet.newline] ->
    mem.weight (mem.pending (bufio.rd reader)) <= k ->
    telnet.readOut_loop fuel reader res = Some (data, None, r') ->
    bufio.rd r' = mem.settled k reader.
Proof.
  induction fuel as [|fuel IH]; intros reader r' res data t Hic Hcont Hk Hl;
    [discriminate|].
  cbn [telnet.readOut_loop] in Hl. unfold bufio.ReadBytes in Hl.
  destruct (bufio.collectFragments (S fuel) reader telnet.newline [])
    as [[[line e1] r1]|] eqn:Hcf; [|discriminate].
  destruct (collectFragments_good (S fuel) telnet.newline reader r1 [] line e1
                                  (proj1 Hic) Hcf)
    as (piece & _ & _ & Hc1 & _ & _ & Hw1 & _).
  destruct (settled_collectFragments k (S fuel) reader r1 [] line t e1
                                     Hic Hcont Hk Hcf)
    as (-> & Hic1 & H1 & H2).
  destruct (bufio.Buffered r1 =? 0) eqn:Hb.
  - injection Hl as _ <-.
    apply Nat.eqb_eq in Hb. unfold bufio.Buffered in Hb.
    apply length_zero_iff_nil in Hb. exact (H1 Hb).
  - apply Nat.eqb_neq in Hb. unfold bufio.Buffered in Hb.
    assert (Hbuf : bufio.buf r1 <> [])
      by (intros Hnil; rewrite Hnil in Hb; apply Hb; reflexivity).
    assert (Hne : mem.content r1 <> []).
    { unfold mem.content. intros Heq. apply app_eq_nil in Heq as [Heq _].
      contradiction. }
    rewrite Hcont in Hc1.
    destruct (app_ends_in _ _ _ _ Hc1 Hne) as (t1 & Ht1).
    rewrite <- (H2 Hbuf).
    exact (IH r1 r' _ data t1 Hic1 Ht1 ltac:(lia) Hl).
Qed.

(** One [readOut] on a clean stream whose bytes end in a newline: it
    returns, with no error, the bytes of its reads, which end with the
    first read that ends in a newline; the rest stays in the stream; a
    single line is returned whole. *)
Lemma readOut_exact (fuel : nat) (s : mem.stream) (t : list byte) :
  mem.clean (mem.pending s) = true ->
  mem.bytes_of (mem.pending s) = t ++ [telnet.newline] ->
  mem.weight (mem.pending s) + 3 <= fuel ->
  exists (data : list byte) (n : nat),
    telnet.readOut fuel s = Some (data, None, mem.after_readOut s, n) /\
    data <> [] /\
    (exists p, data = p ++ [telnet.newline]) /\
    data ++ mem.bytes_of (mem.pending (mem.after_readOut s))
    = t ++ [telnet.newline] /\
    (data = t ++ [telnet.newline] <->
     mem.pending (mem.after_readOut s) = []) /\
    (bytes.IndexByte t telnet.newline = None ->
     data = t ++ [telnet.newline]).
Proof.
  intros Hclean Hbytes Hfuel.
  destruct (readOut_terminates fuel s Hfuel) as ([[[data err] s'] n] & Hro).
  assert (Hends : mem.ends_in telnet.newline (mem.bytes_of (mem.pending s)))
    by (right; exists t; exact Hbytes).
  destruct (readOut_good fuel s s' data err n Hclean Hends Hro)
    as (_ & _ & Hres).
  destruct err as [e|].
  { destruct Hres as (_ & _ & Hnil & _). rewrite Hbytes in Hnil.
    destruct t; discriminate. }
  destruct Hres as ((p & Hp) & Hc & Hcl).
  assert (Hs' : s' = mem.after_readOut s).
  { pose proof Hro as Hro'. unfold telnet.readOut in Hro'.
    destruct (telnet.readOut_loop fuel (bufio.NewReader s) [])
      as [[[d e] r]|] eqn:Hl; [|discriminate].
    injection Hro' as -> -> <- _.
    assert (Hic : mem.in_course (bufio.NewReader s)).
    { split; [split; [exact Hclean | left; reflexivity]|].
      split; [reflexivity | apply Nat.le_0_l]. }
    rewrite (settled_readOut_loop (mem.weight (mem.pending s)) fuel
                                  (bufio.NewReader s) r [] data t
                                  Hic Hbytes (le_n _) Hl).
    unfold mem.settled, mem.after_readOut.
    cbn [bufio.NewReader bufio.NewReaderSize bufio.buf bufio.rd
                         mem.ends_inb mem.unfinished].
    rewrite carry_0. reflexivity. }
  subst s'. exists data, n.
  split; [exact Hro|].
  split; [rewrite Hp; destruct p; discriminate|].
  split; [exists p; exact Hp|].
  split; [rewrite Hc; exact Hbytes|].
  rewrite Hbytes in Hc.
  split; [split|].
  - intros Hall. apply (clean_nil_bytes _ Hcl).
    rewrite <- Hall in Hc. rewrite <- (app_nil_r data) in Hc at 2.
    exact (app_inv_head _ _ _ Hc).
  - intros Hnil. rewrite Hnil in Hc. cbn [mem.bytes_of map concat] in Hc.
    rewrite app_nil_r in Hc. exact Hc.
  - intros Hno. rewrite Hp in Hc.
    pose proof (one_line_whole _ _ _ _ Hc Hno) as Hrest.
    rewrite Hrest, app_nil_r in Hc. rewrite Hp. exact Hc.
Qed.

(** One [Send] and one [Receive] on such a stream. *)
Lemma Send_exact (fuel : nat)
      (c : telnet.client mem.stream mem.stream mem.stream)
      (cn i : mem.stream) (t : list byte) :
  sync.writer (telnet.mu c) = false ->
  telnet.conn c = Some cn ->
  mem.wfail cn = None ->
  telnet.in_ c = Some i ->
  mem.clean (mem.pending i) = true ->
  mem.bytes_of (mem.pending i) = t ++ [telnet.newline] ->
  mem.weight (mem.pending i) + 3 <= fuel ->
  exists (data : list byte) (n : nat),
    telnet.Send fuel c =
    telnet.Returns
      (None,
       telnet.set_conn
         (telnet.set_in c (Some (mem.after_readOut i)))
         (Some (mem.mkStream (mem.pending cn) (mem.sent cn ++ data) None
                             (mem.closes cn) (mem.close_results cn))),
       repeat (telnet.Rd telnet.Input) n
              ++ [telnet.Wr telnet.Connection data]) /\
    data <> [] /\
    (exists p, data = p ++ [telnet.newline]) /\
    data ++ mem.bytes_of (mem.pending (mem.after_readOut i))
    = t ++ [telnet.newline] /\
    (data = t ++ [telnet.newline] <->
     mem.pending (mem.after_readOut i) = []) /\
    (bytes.IndexByte t telnet.newline = None ->
     data = t ++ [telnet.newline]).
Proof.
  intros Hw Hconn Hwf Hin Hclean Hbytes Hfuel.
  destruct (readOut_exact fuel i t Hclean Hbytes Hfuel)
    as (data & n & Hro & Hne & Hrest).
  exists data, n. split; [|split; [exact Hne | exact Hrest]].
  rewrite (Send_present fuel c cn i Hw Hconn Hin), Hro.
  destruct data as [|x data]; [contradiction|]. cbn [length Nat.eqb].
  rewrite (writeOut_mem cn (x :: data) Hwf). reflexivity.
Qed.

Lemma Receive_exact (fuel : nat)
      (c : telnet.client mem.stream mem.stream mem.stream)
      (cn o : mem.stream) (t : list byte) :
  sync.writer (telnet.mu c) = false ->
  telnet.conn c = Some cn ->
  telnet.out c = Some o ->
  mem.wfail o = None ->
  mem.clean (mem.pending cn) = true ->
  mem.bytes_of (mem.pending cn) = t ++ [telnet.newline] ->
  mem.weight (mem.pending cn) + 3 <= fuel ->
  exists (data : list byte) (n : nat),
    telnet.Receive fuel c =
    telnet.Returns
      (None,
       telnet.set_out
         (telnet.set_conn c (Some (mem.after_readOut cn)))
         (Some (mem.mkStream (mem.pending o) (mem.sent o ++ data) None
                             (mem.closes o) (mem.close_results o))),
       repeat (telnet.Rd telnet.Connection) n
              ++ [telnet.Wr telnet.Output data]) /\
    data <> [] /\
    (exists p, data = p ++ [telnet.newline]) /\
    data ++ mem.bytes_of (mem.pending (mem.after_readOut cn))
    = t ++ [telnet.newline] /\
    (data = t ++ [telnet.newline] <->
     mem.pending (mem.after_readOut cn) = []) /\
    (bytes.IndexByte t telnet.newline = None ->
     data = t ++ [telnet.newline]).
Proof.
  intros Hw Hconn Hout Hwf Hclean Hbytes Hfuel.
  destruct (readOut_exact fuel cn t Hclean Hbytes Hfuel)
    as (data & n & Hro & Hne & Hrest).
  exists data, n. split; [|split; [exact Hne | exact Hrest]].
  rewrite (Receive_present fuel c cn o Hw Hconn Hout), Hro.
  rewrite (writeOut_mem o data Hwf). reflexivity.
Qed.

End Stop.

(** C7, in the form that holds.  When the first [Read] of the input,
    into the 4096 bytes of the buffered reader, brings bytes that end in a
    newline, one [Send] makes one [Write] on the connection, with exactly
    those bytes; and so does one [Receive], from the connection to the
    output stream.  On an input that delivers its bytes without error, in
    any number of reads, and whose bytes end in a newline, and a
    connection that takes the write, one [Send] reads until a [Read]
    brings bytes that end in a newline ([mem.after_readOut]) and makes one
    [Write] on the connection, with exactly the bytes read, in order; the
    rest stays in the input; the bytes written are all of them exactly
    when the reads end with the input, as they do for a single line of
    any length; and so does one [Receive]. *)
Theorem C7_relay_ends_with_first_terminated_read :
  (forall (I O C : Type) (RI : io.Reader I) (WO : io.Writer O)
          (RC : io.Reader C) (WC : io.Writer C)
          (fuel : nat) (c : telnet.client I O C) (cn : C) (l : list byte),
      length l + 1 < fuel ->
      sync.writer (telnet.mu c) = false ->
      telnet.conn c = Some cn ->
      (forall (i i' : I) (e : option error),
          telnet.in_ c = Some i ->
          io.Read i bufio.defaultBufSize = (l ++ [telnet.newline], e, i') ->
          telnet.Send fuel c =
          telnet.Returns
            (fst (telnet.writeOut cn (l ++ [telnet.newline])),
             telnet.set_conn
               (telnet.set_in c (Some i'))
               (Some (snd (telnet.writeOut cn (l ++ [telnet.newline])))),
             [telnet.Rd telnet.Input;
              telnet.Wr telnet.Connection (l ++ [telnet.newline])]))
      /\
      (forall (o : O) (cn' : C) (e : option error),
          telnet.out c = Some o ->
          io.Read cn bufio.defaultBufSize = (l ++ [telnet.newline], e, cn') ->
          telnet.Receive fuel c =
          telnet.Returns
            (fst (telnet.writeOut o (l ++ [telnet.newline])),
             telnet.set_out
               (telnet.set_conn c (Some cn'))
               (Some (snd (telnet.writeOut o (l ++ [telnet.newline])))),
             [telnet.Rd telnet.Connection;
              telnet.Wr telnet.Output (l ++ [telnet.newline])])))
  /\
  (forall (fuel : nat) (c : telnet.client mem.stream mem.stream mem.stream)
          (cn i : mem.stream) (t : list byte),
      sync.writer (telnet.mu c) = false ->
      telnet.conn c = Some cn ->
      mem.wfail cn = None ->
      telnet.in_ c = Some i ->
      mem.clean (mem.pending i) = true ->
      mem.bytes_of (mem.pending i) = t ++ [telnet.newline] ->
      mem.weight (mem.pending i) + 3 <= fuel ->
      exists (data : list byte) (n : nat),
        telnet.Send fuel c =
        telnet.Returns
          (None,
           telnet.set_conn
             (telnet.set_in c (Some (mem.after_readOut i)))
             (Some (mem.mkStream (mem.pending cn) (mem.sent cn ++ data) None
                                 (mem.closes cn) (mem.close_results cn))),
           repeat (telnet.Rd telnet.Input) n
                  ++ [telnet.Wr telnet.Connection data]) /\
        data <> [] /\
        (exists p, data = p ++ [telnet.newline]) /\
        data ++ mem.bytes_of (mem.pending (mem.after_readOut i))
        = t ++ [telnet.newline] /\
        (data = t ++ [telnet.newline] <->
         mem.pending (mem.after_readOut i) = []) /\
        (bytes.IndexByte t telnet.newline = None ->
         data = t ++ [telnet.newline]))
  /\
  (forall (fuel : nat) (c : telnet.client mem.stream mem.stream mem.stream)
          (cn o : mem.stream) (t : list byte),
      sync.writer (telnet.mu c) = false ->
      telnet.conn c = Some cn ->
      telnet.out c = Some o ->
      mem.wfail o = None ->
      mem.clean (mem.pending cn) = true ->
      mem.bytes_of (mem.pending cn) = t ++ [telnet.newline] ->
      mem.weight (mem.pending cn) + 3 <= fuel ->
      exists (data : list byte) (n : nat),
        telnet.Receive fuel c =
        telnet.Returns
          (None,
           telnet.set_out
             (telnet.set_conn c (Some (mem.after_readOut cn)))
             (Some (mem.mkStream (mem.pending o) (mem.sent o ++ data) None
                                 (mem.closes o) (mem.close_results o))),
           repeat (telnet.Rd telnet.Connection) n
                  ++ [telnet.Wr telnet.Output data]) /\
        data <> [] /\
        (exists p, data = p ++ [telnet.newline]) /\
        data ++ mem.bytes_of (mem.pending (mem.after_readOut cn))
        = t ++ [telnet.newline] /\
        (data = t ++ [telnet.newline] <->
         mem.pending (mem.after_readOut cn) = []) /\
        (bytes.IndexByte t telnet.newline = None ->
         data = t ++ [telnet.newline])).
Proof.
  split; [|split].
  - intros I O C RI WO RC WC fuel c cn l.
    exact (first_chunk_is_relayed_whole fuel c cn l).
  - exact Send_exact.
  - exact Receive_exact.
Qed.

(** * The further properties, at the clients of the tests *)

Lemma C7_witness :
  (exists c',
      telnet.Send 7 (connected (Some (mem.buffer hello)) None (mem.buffer []))
      = telnet.Returns
          (None, c', [telnet.Rd telnet.Input; telnet.Wr telnet.Connection hello])
      /\ option_map mem.sent (telnet.conn c') = Some hello)
  /\
  (exists c',
      telnet.Receive 7 (connected None (Some (mem.buffer [])) (mem.buffer world))
      = telnet.Returns
          (None, c', [telnet.Rd telnet.Connection; telnet.Wr telnet.Output world])
      /\ option_map mem.sent (telnet.out c') = Some world)
  /\
  (exists (data : list byte) (n : nat),
      telnet.Send 11 (connected (Some hello_in_two) None (mem.buffer [])) =
      telnet.Returns
        (None,
         telnet.set_conn
           (telnet.set_in (connected (Some hello_in_two) None (mem.buffer []))
                          (Some (mem.after_readOut hello_in_two)))
           (Some (mem.mkStream [] ([] ++ data) None 0 [])),
         repeat (telnet.Rd telnet.Input) n
                ++ [telnet.Wr telnet.Connection data])
      /\ data = hello)
  /\
  (exists (data : list byte) (n : nat),
      telnet.Send 4101
                  (connected (Some (mem.buffer long_line)) None (mem.buffer []))
      = telnet.Returns
          (None,
           telnet.set_conn
             (telnet.set_in
                (connected (Some (mem.buffer long_line)) None (mem.buffer []))
                (Some (mem.after_readOut (mem.buffer long_line))))
             (Some (mem.mkStream [] ([] ++ data) None 0 [])),
           repeat (telnet.Rd telnet.Input) n
                  ++ [telnet.Wr telnet.Connection data])
      /\ data = long_line)
  /\
  (exists (data : list byte) (n : nat),
      telnet.Receive 18 (connected None (Some (mem.buffer [])) in_pieces) =
      telnet.Returns
        (None,
         telnet.set_out
           (telnet.set_conn (connected None (Some (mem.buffer [])) in_pieces)
                            (Some (mem.after_readOut in_pieces)))
           (Some (mem.mkStream [] ([] ++ data) None 0 [])),
         repeat (telnet.Rd telnet.Connection) n
                ++ [telnet.Wr telnet.Output data])
      /\ data = hello ++ world).
Proof.
  split; [|split; [|split; [|split]]].
  - eexists. split.
    + exact (proj1 (proj1 C7_relay_ends_with_first_terminated_read
                          mem.stream mem.stream mem.stream _ _ _ _
                          7 (connected (Some (mem.buffer hello)) None
                                       (mem.buffer []))
                          (mem.buffer []) (b "hello")
                          (le_n 7) eq_refl eq_refl)
                   (mem.buffer hello) (mem.buffer []) None eq_refl eq_refl).
    + reflexivity.
  - eexists. split.
    + exact (proj2 (proj1 C7_relay_ends_with_first_terminated_read
                          mem.stream mem.stream mem.stream _ _ _ _
                          7 (connected None (Some (mem.buffer []))
                                       (mem.buffer world))
                          (mem.buffer world) (b "world")
                          (le_n 7) eq_refl eq_refl)
                   (mem.buffer []) (mem.buffer []) None eq_refl eq_refl).
    + reflexivity.
  - destruct (proj1 (proj2 C7_relay_ends_with_first_terminated_read)
                    11 (connected (Some hello_in_two) None (mem.buffer []))
                    (mem.buffer []) hello_in_two (b "hello")
                    eq_refl eq_refl eq_refl eq_refl eq_refl eq_refl (le_n 11))
      as (data & n & HSend & _ & _ & _ & _ & Hline).
    exists data, n. split; [exact HSend | exact (Hline eq_refl)].
  - destruct (proj1 (proj2 C7_relay_ends_with_first_terminated_read)
                    4101
                    (connected (Some (mem.buffer long_line)) None
                               (mem.buffer []))
                    (mem.buffer []) (mem.buffer long_line) (repeat x61 4096)
                    eq_refl eq_refl eq_refl eq_refl eq_refl eq_refl
                    (le_n 4101))
      as (data & n & HSend & _ & _ & _ & _ & Hline).
    exists data, n. split; [exact HSend | exact (Hline eq_refl)].
  - assert (Hend : mem.pending (mem.after_readOut in_pieces) = [])
      by (vm_compute; reflexivity).
    destruct (proj2 (proj2 C7_relay_ends_with_first_terminated_read)
                    18 (connected None (Some (mem.buffer [])) in_pieces)
                    in_pieces (mem.buffer []) (b "hello" ++ LF ++ b "world")
                    eq_refl eq_refl eq_refl eq_refl eq_refl eq_refl (le_n 18))
      as (data & n & HRecv & _ & _ & _ & Hall & _).
    exists data, n. split; [exact HRecv | exact (proj2 Hall Hend)].
Defined.

Lemma X1_witness :
  telnet.Receive 2 (connected None (Some (mem.buffer [])) (mem.buffer [])) =
  telnet.Returns
    (Some (Sentinel ErrEOT),
     telnet.set_conn (connected None (Some (mem.buffer [])) (mem.buffer []))
                     (Some (mem.buffer [])),
     [telnet.Rd telnet.Connection]).
Proof.
  exact (X1_receive_end_of_stream
           2 (connected None (Some (mem.buffer [])) (mem.buffer []))
           (mem.buffer []) (mem.buffer []) (mem.buffer []) (Sentinel io_EOF)
           (le_n 2) eq_refl eq_refl eq_refl eq_refl eq_refl).
Defined.

Lemma X2_witness :
  telnet.Receive 2 (connected None (Some (mem.buffer [])) closed_conn) =
  telnet.Returns
    (Some (conn_closed use_of_closed),
     telnet.set_conn
       (connected None (Some (mem.buffer [])) closed_conn)
       (Some (snd (mem.Read closed_conn bufio.defaultBufSize))),
     [telnet.Rd telnet.Connection]).
Proof.
  exact (proj1 (X2_read_error_is_classified
                  2 (connected None (Some (mem.buffer [])) closed_conn)
                  closed_conn (snd (mem.Read closed_conn bufio.defaultBufSize))
                  (mem.buffer []) [] use_of_closed
                  (le_n 2) eq_refl eq_refl eq_refl eq_refl eq_refl eq_refl
                  eq_refl eq_refl)).
Defined.

Lemma X3_witness :
  telnet.Send 7 (connected (Some (mem.buffer hello)) None closed_conn) =
  telnet.Returns
    (Some (conn_closed use_of_closed),
     telnet.set_conn
       (telnet.set_in (connected (Some (mem.buffer hello)) None closed_conn)
                      (Some (mem.buffer [])))
       (Some closed_conn),
     [telnet.Rd telnet.Input; telnet.Wr telnet.Connection hello]).
Proof.
  exact (proj1 (X3_write_error_is_classified
                  7 (connected (Some (mem.buffer hello)) None closed_conn)
                  closed_conn closed_conn (mem.buffer hello) (mem.buffer [])
                  (b "hello") None 0 use_of_closed
                  (le_n 7) eq_refl eq_refl eq_refl eq_refl eq_refl eq_refl)).
Defined.

Lemma X4_witness :
  exists n : nat,
    [telnet.Rd telnet.Input; telnet.Wr telnet.Connection hello] =
    repeat (telnet.Rd telnet.Input) n \/
    exists data : list byte,
      data <> [] /\
      [telnet.Rd telnet.Input; telnet.Wr telnet.Connection hello] =
      repeat (telnet.Rd telnet.Input) n ++ [telnet.Wr telnet.Connection data].
Proof.
  assert (Hs : telnet.Send
                 7 (connected (Some (mem.buffer hello)) None (mem.buffer [])) =
               telnet.Returns
                 (None,
                  telnet.set_conn
                    (telnet.set_in
                       (connected (Some (mem.buffer hello)) None
                                  (mem.buffer []))
                       (Some (mem.buffer [])))
                    (Some (snd (mem.Write (mem.buffer []) hello))),
                  [telnet.Rd telnet.Input; telnet.Wr telnet.Connection hello]))
    by (vm_compute; reflexivity).
  exact (proj2 (proj2 (proj2
           (proj1 X4_reads_then_one_write _ _ _ _ _ Hs)))).
Defined.

Lemma X5_witness :
  telnet.mu (unconnected (10 * second)) =
  telnet.mu (connected None None (mem.buffer world))
  /\
  telnet.mu (telnet.set_conn
               (telnet.set_in
                  (connected (Some (mem.buffer hello)) None (mem.buffer []))
                  (Some (mem.buffer [])))
               (Some (snd (mem.Write (mem.buffer []) hello)))) =
  telnet.mu (connected (Some (mem.buffer hello)) None (mem.buffer [])).
Proof.
  split.
  - exact (proj1 (proj2 (X5_lock_is_given_back
                           (connected None None (mem.buffer world))
                           (unconnected (10 * second))
                           None [telnet.Cl telnet.Connection]))
                 eq_refl).
  - assert (Hs : telnet.Send
                   7 (connected (Some (mem.buffer hello)) None
                                (mem.buffer [])) =
                 telnet.Returns
                   (None,
                    telnet.set_conn
                      (telnet.set_in
                         (connected (Some (mem.buffer hello)) None
                                    (mem.buffer []))
                         (Some (mem.buffer [])))
                      (Some (snd (mem.Write (mem.buffer []) hello))),
                    [telnet.Rd telnet.Input;
                     telnet.Wr telnet.Connection hello]))
      by (vm_compute; reflexivity).
    assert (Hc : telnet.conn (connected (Some (mem.buffer hello)) None
                                        (mem.buffer [])) <> None)
      by (simpl; discriminate).
    assert (Hi : telnet.in_ (connected (Some (mem.buffer hello)) None
                                       (mem.buffer [])) <> None)
      by (simpl; discriminate).
    exact (proj1 (proj2 (proj2 (X5_lock_is_given_back _ _ _ _))) 7 Hc Hi Hs).
Defined.

Lemma X6_witness :
  telnet.Close (unconnected (10 * second)) =
  telnet.Returns (None, unconnected (10 * second), []).
Proof.
  exact (X6_close_again_without_input
           (connected None None (mem.buffer world))
           (unconnected (10 * second)) None [telnet.Cl telnet.Connection]
           eq_refl eq_refl).
Defined.

Lemma X7_witness :
  telnet.Send 1 (unconnected (10 * second)) =
  telnet.Returns
    (Some (nil_input true true),
     telnet.set_mu (unconnected (10 * second)) (sync.mkRWMutex 1 false), []).
Proof.
  exact (proj1 (X7_use_after_close
                  1 (connected None None (mem.buffer world))
                  (unconnected (10 * second)) None
                  [telnet.Cl telnet.Connection] eq_refl)).
Defined.

Lemma X8_witness :
  telnet.Connect (net.DialTimeout (listener (mem.buffer world)))
                 (connected None None (mem.buffer hello)) =
  telnet.Returns
    (None,
     telnet.set_conn (connected None None (mem.buffer hello))
                     (Some (mem.buffer world)),
     [telnet.Dial "tcp" loopback (10 * second)]).
Proof.
  exact (proj1 (X8_connect_replaces_connection
                  (net.DialTimeout (listener (mem.buffer world)))
                  (connected None None (mem.buffer hello))
                  (mem.buffer hello) (mem.buffer world)
                  eq_refl eq_refl eq_refl)).
Defined.

Lemma X9_witness :
  telnet.Send 2 waiting =
  telnet.Returns
    (Some (reading_failed (Sentinel io_ErrNoProgress)), waiting,
     repeat (telnet.Rd telnet.Input) bufio.maxConsecutiveEmptyReads).
Proof.
  exact (X9_idle_input_fails_send
           2 waiting (mem.buffer []) idle.Idle
           (le_n 2) eq_refl eq_refl eq_refl (fun _ => eq_refl)).
Defined.

Lemma X10_witness :
  exists (data : list byte) (s' : mem.stream) (n : nat),
    telnet.readOut 18 in_pieces = Some (data, None, s', n) /\
    (exists p, data = p ++ [telnet.newline]) /\
    data ++ mem.bytes_of (mem.pending s') =
    mem.bytes_of (mem.pending in_pieces) /\
    mem.clean (mem.pending s') = true /\
    mem.same_sink in_pieces s'.
Proof.
  exact (X10_readOut_keeps_every_byte
           18 in_pieces (b "hello" ++ LF ++ b "world")
           eq_refl eq_refl (le_n 18)).
Defined.

Lemma X11_witness :
  exists (s' : mem.stream) (n : nat),
    telnet.readOut 11 hello_in_two =
    Some (b "hello" ++ [telnet.newline], None, s', n) /\
    mem.pending s' = [] /\
    mem.same_sink hello_in_two s'.
Proof.
  exact (X11_readOut_returns_a_line_whole
           11 hello_in_two (b "hello") eq_refl eq_refl eq_refl (le_n 11)).
Defined.

Lemma X12_witness :
  exists (c' : telnet.client mem.stream mem.stream mem.stream)
         (i' : mem.stream) (calls : list telnet.call),
    main.sender 18 13 never (connected (Some in_pieces) None (mem.buffer [])) =
    telnet.Returns (Some (Sentinel ErrEOT), c', calls) /\
    telnet.conn c' =
    Some (mem.mkStream (mem.pending (mem.buffer []))
                       (mem.sent (mem.buffer [])
                                 ++ mem.bytes_of (mem.pending in_pieces))
                       None (mem.closes (mem.buffer []))
                       (mem.close_results (mem.buffer []))) /\
    telnet.in_ c' = Some i' /\ mem.pending i' = [] /\
    mem.same_sink in_pieces i' /\
    telnet.out c' =
    telnet.out (connected (Some in_pieces) None (mem.buffer [])) /\
    main.classify (Sentinel ErrEOT) = main.EOFReceived.
Proof.
  exact (X12_sender_relays_everything
           18 13 never (connected (Some in_pieces) None (mem.buffer []))
           (mem.buffer []) in_pieces
           (fun _ => eq_refl) eq_refl eq_refl eq_refl eq_refl eq_refl
           (or_intror (ex_intro _ (b "hello" ++ LF ++ b "world") eq_refl))
           (le_n 18) (le_n 13)).
Defined.

Lemma X13_witness :
  exists (c' : telnet.client mem.stream mem.stream mem.stream)
         (cn' : mem.stream) (calls : list telnet.call),
    main.receiver 18 13 never
                  (connected None (Some (mem.buffer [])) in_pieces) =
    telnet.Returns (Some (Sentinel ErrEOT), c', calls) /\
    telnet.out c' =
    Some (mem.mkStream (mem.pending (mem.buffer []))
                       (mem.sent (mem.buffer [])
                                 ++ mem.bytes_of (mem.pending in_pieces))
                       None (mem.closes (mem.buffer []))
                       (mem.close_results (mem.buffer []))) /\
    telnet.conn c' = Some cn' /\ mem.pending cn' = [] /\
    mem.same_sink in_pieces cn' /\
    telnet.in_ c' =
    telnet.in_ (connected None (Some (mem.buffer [])) in_pieces).
Proof.
  exact (X13_receiver_relays_everything
           18 13 never (connected None (Some (mem.buffer [])) in_pieces)
           in_pieces (mem.buffer [])
           (fun _ => eq_refl) eq_refl eq_refl eq_refl eq_refl eq_refl
           (or_intror (ex_intro _ (b "hello" ++ LF ++ b "world") eq_refl))
           (le_n 18) (le_n 13)).
Defined.
